(** * HackTheBox CTF e-mail watcher ([htb_ctf_email.py]): a shallow embedding

    The Python program keeps all of its state in plain JSON values: the
    catalog summaries and detail records returned by the HTTP API, and the
    on-disk cache mapping CTF identifiers to tracking records.  We model a
    JSON value as the inductive [json] below and a Python [dict] as an
    association list with unique keys, in insertion order.

    Python [str] values are modelled as Rocq [string]s, i.e. sequences of
    characters with code points below 256.  Characters above that range are
    outside the model. *)

From Stdlib Require Import String Ascii List Bool ZArith Lia.
From Stdlib Require Import Numbers.DecimalString Numbers.DecimalPos.
Import ListNotations.
Open Scope string_scope.
Set Warnings "-register-all".

Definition dquote : ascii := ascii_of_nat 34.

(* ------------------------------------------------------------------ *)
(** ** JSON values and Python dictionaries *)

Inductive json : Type :=
| JNull
| JBool (b : bool)
| JInt (z : Z)
| JNum (c : ascii) (t : string)  (* a non-integer JSON number, kept as its text [String c t] *)
| JStr (s : string)
| JArr (l : list json)
| JObj (l : list (string * json)).

(** A Python [dict] with string keys. *)
Definition dict := list (string * json).

(** [d.get(k)]: [None] when the key is absent. *)
Fixpoint dict_get (d : dict) (k : string) : option json :=
  match d with
  | [] => None
  | (k', v) :: d' => if String.eqb k k' then Some v else dict_get d' k
  end.

Definition dict_mem (k : string) (d : dict) : bool :=
  match dict_get d k with Some _ => true | None => false end.

(** [d[k] = v]: overwrite in place when present, append otherwise. *)
Fixpoint dict_set (d : dict) (k : string) (v : json) : dict :=
  match d with
  | [] => [(k, v)]
  | (k', v') :: d' =>
      if String.eqb k k' then (k', v) :: d' else (k', v') :: dict_set d' k v
  end.

(* ------------------------------------------------------------------ *)
(** ** Python floats

    [json.loads] turns a non-integer number into the IEEE binary64 value
    nearest to it (ties to even), [inf] past the largest finite value;
    [NaN], [Infinity] and [-Infinity] are read as such. *)

Inductive pyfloat :=
| PFin (neg : bool) (n q : Z)   (* [(-1)^neg * n * 2^q] *)
| PInf (neg : bool)
| PNaN.

Definition digit_val (c : ascii) : option Z :=
  let n := nat_of_ascii c in
  if Nat.leb 48 n && Nat.leb n 57 then Some (Z.of_nat (n - 48)) else None.

(** The digits of [int frac] as one integer, with the number of fraction
    digits, up to the exponent part. *)
Fixpoint mant_scan (s : string) (m nf : Z) (frac : bool) : Z * Z * string :=
  match s with
  | String ch s' =>
      match digit_val ch with
      | Some d => mant_scan s' (m * 10 + d)%Z (if frac then (nf + 1)%Z else nf) frac
      | None => if Ascii.eqb ch "."%char then mant_scan s' m nf true else (m, nf, s)
      end
  | EmptyString => (m, nf, s)
  end.

Fixpoint dec_scan (s : string) (acc : Z) : Z :=
  match s with
  | String ch s' =>
      match digit_val ch with
      | Some d => dec_scan s' (acc * 10 + d)%Z
      | None => acc
      end
  | EmptyString => acc
  end.

(** The exponent part [(e|E)[+|-]digits], or 0 when there is none. *)
Definition exp_scan (s : string) : Z :=
  match s with
  | String _ (String "-" r) => (- dec_scan r 0)%Z
  | String _ (String "+" r) => dec_scan r 0
  | String _ r => dec_scan r 0
  | EmptyString => 0%Z
  end.

(** [2^l <= num / den] *)
Definition ge_pow2 (num den l : Z) : bool :=
  if Z.leb 0 l then Z.leb (den * 2 ^ l) num else Z.leb den (num * 2 ^ (- l)).

(** The binary64 value nearest to [num / den] (both positive), ties to even. *)
Definition round_binary64 (neg : bool) (num den : Z) : pyfloat :=
  if Z.eqb num 0 then PFin neg 0 0 else
  let l0 := (Z.log2 num - Z.log2 den)%Z in
  let fl := if ge_pow2 num den l0 then l0 else (l0 - 1)%Z in
  let q := Z.max (fl - 52) (-1074) in
  let nq := (num * 2 ^ (Z.max 0 (- q)))%Z in
  let dq := (den * 2 ^ (Z.max 0 q))%Z in
  let n0 := (nq / dq)%Z in
  let r := (nq mod dq)%Z in
  let n := if Z.ltb dq (2 * r) || (Z.eqb (2 * r) dq && Z.odd n0) then (n0 + 1)%Z else n0 in
  if Z.leb 0 q && Z.leb (2 ^ 1024) (n * 2 ^ q) then PInf neg else PFin neg n q.

(** [float(lexeme)] for the text of a [JNum]. *)
Definition float_of_lexeme (s : string) : pyfloat :=
  let '(neg, body) := match s with
                      | String "-" r => (true, r)
                      | _ => (false, s)
                      end in
  match body with
  | String "N" _ => PNaN
  | String "I" _ => PInf neg
  | _ =>
      let '(m, nf, r) := mant_scan body 0 0 false in
      let e := (exp_scan r - nf)%Z in
      if Z.leb 0 e then round_binary64 neg (m * 10 ^ e) 1
      else round_binary64 neg m (10 ^ (- e))
  end.

(** [f == n] for a float [f] and an integer [n] (exact comparison). *)
Definition float_eq_int (f : pyfloat) (n : Z) : bool :=
  match f with
  | PFin neg m q =>
      let v := if neg then (- m)%Z else m in
      if Z.leb 0 q then Z.eqb (v * 2 ^ q) n else Z.eqb v (n * 2 ^ (- q))
  | _ => false
  end.

(** Python truthiness of a JSON value ([if x:] / [not x]). *)
Definition truthy (v : json) : bool :=
  match v with
  | JNull => false
  | JBool b => b
  | JInt z => negb (Z.eqb z 0)
  | JNum c t =>
      match float_of_lexeme (String c t) with
      | PFin _ m _ => negb (Z.eqb m 0)
      | _ => true
      end
  | JStr s => negb (String.eqb s EmptyString)
  | JArr l => match l with [] => false | _ => true end
  | JObj l => match l with [] => false | _ => true end
  end.

Definition truthy_opt (v : option json) : bool :=
  match v with Some x => truthy x | None => false end.

(* ------------------------------------------------------------------ *)
(** ** Python [str()] and [repr()] of JSON values *)

Definition chr (n : nat) : string := String (ascii_of_nat n) EmptyString.

Definition hex_digit (n : nat) : ascii :=
  if Nat.ltb n 10 then ascii_of_nat (48 + n) else ascii_of_nat (87 + n).

(** Two lower-case hex digits of a byte. *)
Definition hex2 (n : nat) : string :=
  String (hex_digit (n / 16)) (String (hex_digit (n mod 16)) EmptyString).

Definition Z_to_dec (z : Z) : string := NilEmpty.string_of_int (Z.to_int z).

(** Printable characters for [repr] (code points below 256). *)
Definition py_printable (n : nat) : bool :=
  (Nat.leb 32 n && Nat.ltb n 127) || (Nat.leb 161 n && negb (Nat.eqb n 173)).

Fixpoint has_char (c : ascii) (s : string) : bool :=
  match s with
  | EmptyString => false
  | String c' s' => Ascii.eqb c c' || has_char c s'
  end.

(** [repr(s)] of a Python string: single quotes unless the text contains a
    single quote and no double quote. *)
Definition py_repr_str (s : string) : string :=
  let q := if has_char "'"%char s && negb (has_char dquote s)
           then dquote else "'"%char in
  let fix esc (s : string) : string :=
    match s with
    | EmptyString => EmptyString
    | String c s' =>
        let n := nat_of_ascii c in
        (if Ascii.eqb c "\"%char then "\\"
         else if Ascii.eqb c q then String "\"%char (String q EmptyString)
         else if Nat.eqb n 9 then "\t"
         else if Nat.eqb n 10 then "\n"
         else if Nat.eqb n 13 then "\r"
         else if py_printable n then String c EmptyString
         else "\x" ++ hex2 n) ++ esc s'
    end in
  String q (esc s ++ String q EmptyString).

Fixpoint py_repr (v : json) : string :=
  match v with
  | JNull => "None"
  | JBool true => "True"
  | JBool false => "False"
  | JInt z => Z_to_dec z
  | JNum c t => String c t
  | JStr s => py_repr_str s
  | JArr l =>
      "[" ++ (fix go (l : list json) : string :=
                match l with
                | [] => EmptyString
                | x :: t => py_repr x ++ match t with [] => EmptyString | _ => ", " ++ go t end
                end) l ++ "]"
  | JObj l =>
      "{" ++ (fix go (l : list (string * json)) : string :=
                match l with
                | [] => EmptyString
                | (k, x) :: t =>
                    py_repr_str k ++ ": " ++ py_repr x
                    ++ match t with [] => EmptyString | _ => ", " ++ go t end
                end) l ++ "}"
  end.

(** [str(x)] of a JSON value; [str(None)] is ["None"]. *)
Definition py_str (v : json) : string :=
  match v with
  | JStr s => s
  | _ => py_repr v
  end.

Definition py_str_opt (v : option json) : string :=
  match v with Some x => py_str x | None => "None" end.

(* ------------------------------------------------------------------ *)
(** ** A backtracking matcher with Python [re] semantics

    Only the constructs used by [TOKEN_RE] and [URL_TOKEN_RE] are needed:
    single characters from a class, concatenation, ordered alternation,
    greedy bounded or unbounded repetition of a character class, and one
    capturing group.  The matcher is written in continuation-passing style,
    so that alternatives and repetition counts are tried in the order the
    Python engine tries them, and the first successful path wins.  The
    result of a match is the value of group 1. *)

Inductive regex : Type :=
| RChar (p : ascii -> bool)
| RSeq (r1 r2 : regex)
| RAlt (r1 r2 : regex)
| RRep (p : ascii -> bool) (lo : nat) (hi : option nat)
| RGroup (r : regex).

(** Number of leading characters of [s] in the class [p], at most [hi]. *)
Fixpoint run_len (p : ascii -> bool) (hi : option nat) (s : string) : nat :=
  match hi with
  | Some 0 => 0
  | _ =>
      match s with
      | EmptyString => 0
      | String c s' =>
          if p c then S (run_len p (option_map pred hi) s') else 0
      end
  end.

Definition cont := string -> option string -> option (option string).

Fixpoint mt (r : regex) (s : string) (g : option string) (k : cont)
  : option (option string) :=
  match r with
  | RChar p =>
      match s with
      | String c s' => if p c then k s' g else None
      | EmptyString => None
      end
  | RSeq r1 r2 => mt r1 s g (fun s' g' => mt r2 s' g' k)
  | RAlt r1 r2 =>
      match mt r1 s g k with
      | Some x => Some x
      | None => mt r2 s g k
      end
  | RRep p lo hi =>
      (* greedy: the longest run first, then one character less, ... *)
      let fix go (m : nat) : option (option string) :=
        if Nat.ltb m lo then None
        else match k (substring m (String.length s - m) s) g with
             | Some x => Some x
             | None => match m with 0 => None | S m' => go m' end
             end in
      go (run_len p hi s)
  | RGroup r1 =>
      mt r1 s g (fun s' _ => k s' (Some (substring 0 (String.length s - String.length s') s)))
  end.

Definition cont_done : cont := fun _ g => Some g.

(** [pattern.search(s)]: the leftmost position where the pattern matches;
    [Some g] is a match object whose group 1 is [g]. *)
Fixpoint re_search (r : regex) (s : string) : option (option string) :=
  match mt r s None cont_done with
  | Some g => Some g
  | None =>
      match s with
      | EmptyString => None
      | String _ s' => re_search r s'
      end
  end.

(** Character classes (under [re.I]). *)
Definition lower (c : ascii) : ascii :=
  let n := nat_of_ascii c in
  if Nat.leb 65 n && Nat.leb n 90 then ascii_of_nat (n + 32) else c.

Definition ci_char (x : ascii) : ascii -> bool := fun c => Ascii.eqb (lower c) (lower x).

(** [\s] on [str] patterns, restricted to code points below 256:
    [\t \n \v \f \r], the separators [\x1c]-[\x1f], space, [\x85], [\xa0]. *)
Definition is_space (c : ascii) : bool :=
  let n := nat_of_ascii c in
  (Nat.leb 9 n && Nat.leb n 13) || (Nat.leb 28 n && Nat.leb n 32)
  || Nat.eqb n 133 || Nat.eqb n 160.

(** [[A-Za-z0-9_\-]] *)
Definition is_tok_char (c : ascii) : bool :=
  let n := nat_of_ascii c in
  (Nat.leb 65 n && Nat.leb n 90) || (Nat.leb 97 n && Nat.leb n 122)
  || (Nat.leb 48 n && Nat.leb n 57) || Nat.eqb n 95 || Nat.eqb n 45.

(** [[:=\-]] *)
Definition is_sep (c : ascii) : bool :=
  Ascii.eqb c ":"%char || Ascii.eqb c "="%char || Ascii.eqb c "-"%char.

(** [[?&]] *)
Definition is_qa (c : ascii) : bool := Ascii.eqb c "?"%char || Ascii.eqb c "&"%char.

(** A literal word, matched case-insensitively; the empty word is not used. *)
Fixpoint lit (w : string) : regex :=
  match w with
  | EmptyString => RRep (fun _ => false) 0 (Some 0)
  | String c EmptyString => RChar (ci_char c)
  | String c w' => RSeq (RChar (ci_char c)) (lit w')
  end.

Definition spaces : regex := RRep is_space 0 None.

(** [(?:token|access\s*(?:code|key)|join\s*code|join\s*key|invite\s*code)
     \s*[:=\-]?\s*([A-Za-z0-9_\-]{4,40})] with [re.I] *)
Definition TOKEN_RE : regex :=
  RSeq
    (RAlt (lit "token")
     (RAlt (RSeq (lit "access") (RSeq spaces (RAlt (lit "code") (lit "key"))))
     (RAlt (RSeq (lit "join") (RSeq spaces (lit "code")))
     (RAlt (RSeq (lit "join") (RSeq spaces (lit "key")))
           (RSeq (lit "invite") (RSeq spaces (lit "code")))))))
    (RSeq spaces
    (RSeq (RRep is_sep 0 (Some 1))
    (RSeq spaces
          (RGroup (RRep is_tok_char 4 (Some 40)))))).

(** [[?&](?:code|token|access_code|invite)=([A-Za-z0-9_\-]{4,80})] with [re.I] *)
Definition URL_TOKEN_RE : regex :=
  RSeq (RChar is_qa)
  (RSeq (RAlt (lit "code") (RAlt (lit "token") (RAlt (lit "access_code") (lit "invite"))))
  (RSeq (RChar (ci_char "="%char))
        (RGroup (RRep is_tok_char 4 (Some 80))))).

(** [extract_token_from_text]: [URL_TOKEN_RE.search(text) or TOKEN_RE.search(text)],
    then [m.group(1) if m else None]. *)
Definition extract_token_from_text (text : string) : option string :=
  if String.eqb text EmptyString then None
  else
    match re_search URL_TOKEN_RE text with
    | Some g => g
    | None =>
        match re_search TOKEN_RE text with
        | Some g => g
        | None => None
        end
    end.

(* ------------------------------------------------------------------ *)
(** ** The eligibility classifier [is_free_or_has_token] *)

(** Python [v == n] for an integer [n]: [False == 0], [True == 1], and a
    float equals [n] when its value is [n] ([0.0 == 0], [1.0 == 1]). *)
Definition py_eq_int (v : json) (n : Z) : bool :=
  match v with
  | JBool b => Z.eqb (if b then 1 else 0) n
  | JInt z => Z.eqb z n
  | JNum c t => float_eq_int (float_of_lexeme (String c t)) n
  | _ => false
  end%Z.

(** [has_code in (None, 0)]; [detail.get] yields [None] for an absent key
    and for a JSON [null]. *)
Definition in_none_or_zero (v : option json) : bool :=
  match v with
  | None | Some JNull => true
  | Some x => py_eq_int x 0
  end.

Definition free_text_keys : list string :=
  ["description"; "long_description"; "short_description";
   "instructions"; "join_instructions"].

(** [str(detail.get(k, default))] with the empty string as default *)
Definition get_text (detail : dict) (k : string) : string :=
  match dict_get detail k with
  | Some v => py_str v
  | None => EmptyString
  end.

(** ["\n".join(...)] *)
Fixpoint join_nl (l : list string) : string :=
  match l with
  | [] => EmptyString
  | [x] => x
  | x :: t => x ++ String (ascii_of_nat 10) (join_nl t)
  end.

Definition is_free_or_has_token (detail : dict) : bool * option string :=
  let has_code := dict_get detail "hasCode" in
  if in_none_or_zero has_code then (true, None)
  else if (match has_code with Some x => py_eq_int x 1 | None => false end) then
    let text := join_nl (map (get_text detail) free_text_keys) in
    match extract_token_from_text text with
    | Some t => if String.eqb t EmptyString then (false, None) else (true, Some t)
    | None => (false, None)
    end
  else (false, None).

(* ------------------------------------------------------------------ *)
(** ** Timestamps: [dateutil.parser.parse] and [strftime]

    [dateutil] is an external library.  The program is stated over any
    parser [string -> option datetime] ([None]: it raised); the theorems
    hold whichever texts it accepts.  [date_parser_parse] below is the
    parser used by the concrete runs: it reads the ISO 8601 forms
    [YYYY-MM-DD] (a naive midnight) and
    [YYYY-MM-DD(T| )HH:MM[:SS[.ffffff]][Z|(+|-)HH[[:]MM]]], as [dateutil]
    does, and rejects everything else. *)

Record datetime := mkdt {
  dt_year : Z; dt_month : Z; dt_day : Z;
  dt_hour : Z; dt_minute : Z; dt_second : Z; dt_micro : Z;
  dt_tzoffset : option Z   (* seconds east of UTC; [None] for a naive value *)
}.

(** Exactly [n] decimal digits. *)
Fixpoint digits_n (n : nat) (acc : Z) (s : string) : option (Z * string) :=
  match n with
  | O => Some (acc, s)
  | S n' =>
      match s with
      | String c s' =>
          match digit_val c with
          | Some d => digits_n n' (acc * 10 + d)%Z s'
          | None => None
          end
      | EmptyString => None
      end
  end.

(** The digits of a fraction, as microseconds (first six digits). *)
Fixpoint frac_digits (k : nat) (acc : Z) (s : string) : Z * string :=
  match s with
  | String c s' =>
      match digit_val c with
      | Some d =>
          match k with
          | O => frac_digits O acc s'
          | S k' => frac_digits k' (acc * 10 + d)%Z s'
          end
      | None => (acc * 10 ^ Z.of_nat k, s)%Z
      end
  | EmptyString => (acc * 10 ^ Z.of_nat k, s)%Z
  end.

Definition expect (c : ascii) (s : string) : option string :=
  match s with
  | String c' s' => if Ascii.eqb c c' then Some s' else None
  | EmptyString => None
  end.

Definition is_leap (y : Z) : bool :=
  (Z.eqb (y mod 4) 0 && negb (Z.eqb (y mod 100) 0)) || Z.eqb (y mod 400) 0.

Definition days_in_month (y m : Z) : Z :=
  if Z.eqb m 2 then (if is_leap y then 29 else 28)
  else if (Z.eqb m 4 || Z.eqb m 6 || Z.eqb m 9 || Z.eqb m 11) then 30 else 31.

Definition parse_tz (s : string) : option (option Z) :=
  match s with
  | EmptyString => Some None
  | String "Z" EmptyString => Some (Some 0%Z)
  | String sg r =>
      let sign := if Ascii.eqb sg "+"%char then Some 1%Z
                  else if Ascii.eqb sg "-"%char then Some (-1)%Z else None in
      match sign with
      | None => None
      | Some sgn =>
          match digits_n 2 0 r with
          | Some (hh, r1) =>
              match (match r1 with
                     | EmptyString => Some (0%Z, EmptyString)
                     | String ":" r2 => digits_n 2 0 r2
                     | _ => digits_n 2 0 r1
                     end) with
              | Some (mm, EmptyString) =>
                  if (Z.ltb hh 24 && Z.ltb mm 60)%Z
                  then Some (Some (sgn * (hh * 3600 + mm * 60))%Z) else None
              | _ => None
              end
          | None => None
          end
      end
  end.

Definition valid_date (y mo d : Z) : bool :=
  (Z.leb 1 y && Z.leb 1 mo && Z.leb mo 12 && Z.leb 1 d && Z.leb d (days_in_month y mo))%Z.

(** [[:SS[.ffffff]]] after [HH:MM]: seconds, microseconds and the rest. *)
Definition parse_secs (r : string) : option (Z * Z * string) :=
  match r with
  | String ":" r' =>
      match digits_n 2 0 r' with
      | Some (sec, r'') =>
          let '(us, r3) := match r'' with
                           | String "." r4 => frac_digits 6 0 r4
                           | _ => (0%Z, r'')
                           end in
          Some (sec, us, r3)
      | None => None
      end
  | _ => Some (0%Z, 0%Z, r)
  end.

Definition date_parser_parse (s : string) : option datetime :=
  match digits_n 4 0 s with
  | None => None
  | Some (y, r) =>
  match expect "-"%char r with None => None | Some r =>
  match digits_n 2 0 r with None => None | Some (mo, r) =>
  match expect "-"%char r with None => None | Some r =>
  match digits_n 2 0 r with None => None | Some (d, r) =>
  match r with
  | EmptyString => if valid_date y mo d then Some (mkdt y mo d 0 0 0 0 None) else None
  | String c r =>
  if negb (Ascii.eqb c "T"%char || Ascii.eqb c " "%char) then None else
  match digits_n 2 0 r with None => None | Some (h, r) =>
  match expect ":"%char r with None => None | Some r =>
  match digits_n 2 0 r with None => None | Some (mi, r) =>
  match parse_secs r with None => None | Some (sec, us, r) =>
  match parse_tz r with None => None | Some tz =>
    if (valid_date y mo d && Z.ltb h 24 && Z.ltb mi 60 && Z.ltb sec 60)%Z
    then Some (mkdt y mo d h mi sec us tz) else None
  end end end end end end end end end end
  end.

(** Days since 1970-01-01 of a proleptic Gregorian date. *)
Definition days_from_civil (y m d : Z) : Z :=
  let y' := if Z.leb m 2 then (y - 1)%Z else y in
  let era := (y' / 400)%Z in
  let yoe := (y' - era * 400)%Z in
  let doy := ((153 * (m + (if Z.ltb 2 m then -3 else 9)) + 2) / 5 + d - 1)%Z in
  let doe := (yoe * 365 + yoe / 4 - yoe / 100 + doy)%Z in
  (era * 146097 + doe - 719468)%Z.

(** The instant of an aware datetime, in microseconds since the epoch (UTC);
    [None] for a naive one ([starts_at - now] raises [TypeError]). *)
Definition utc_micros (dt : datetime) : option Z :=
  match dt_tzoffset dt with
  | None => None
  | Some off =>
      Some ((((days_from_civil (dt_year dt) (dt_month dt) (dt_day dt)) * 86400
              + dt_hour dt * 3600 + dt_minute dt * 60 + dt_second dt - off) * 1000000
             + dt_micro dt)%Z)
  end.

Definition pad2 (z : Z) : string :=
  if Z.ltb z 10 then "0" ++ Z_to_dec z else Z_to_dec z.

(** [dt.strftime("%Y-%m-%d %H:%M UTC")]: the datetime's own fields, with
    glibc's unpadded [%Y]. *)
Definition strftime_utc (dt : datetime) : string :=
  Z_to_dec (dt_year dt) ++ "-" ++ pad2 (dt_month dt) ++ "-" ++ pad2 (dt_day dt)
  ++ " " ++ pad2 (dt_hour dt) ++ ":" ++ pad2 (dt_minute dt) ++ " UTC".

(** [format_datetime], with [parse] for [date_parser.parse] *)
Definition format_datetime (parse : string -> option datetime) (iso_str : option string)
  : string :=
  match iso_str with
  | None => "Unknown"
  | Some s =>
      if String.eqb s EmptyString then "Unknown"
      else match parse s with
           | Some dt => strftime_utc dt
           | None => s
           end
  end.

(* ------------------------------------------------------------------ *)
(** ** The watch cycle [main]

    Effects are modelled by a state and exception monad.  The state is the
    in-memory cache together with a log of the observable effects: e-mails
    handed to SMTP (with the outcome [send_email] returned) and cache files
    written by [save_cache].  A Python exception is [None]; as in Python,
    mutations made before the exception are kept. *)

(** The message passed to [send_email].  Its HTML body is a pure function of
    these inputs ([build_email_body] or the reminder f-string). *)
Inductive message :=
| MsgDiscovery (ctf detail : dict) (token : option string)
| MsgReminder (slug : string) (name : option json).

Inductive event :=
| ESend (m : message) (ok : bool)
| ESave (c : dict).

Record St := mkSt { st_cache : dict; st_events : list event }.

Definition M (A : Type) := St -> option A * St.

Definition ret {A} (a : A) : M A := fun s => (Some a, s).
Definition bind {A B} (m : M A) (f : A -> M B) : M B :=
  fun s => match m s with
           | (Some a, s') => f a s'
           | (None, s') => (None, s')
           end.
Definition raise {A} : M A := fun s => (None, s).
(** [try: m except Exception: pass] *)
Definition try_pass (m : M unit) : M unit :=
  fun s => match m s with
           | (Some u, s') => (Some u, s')
           | (None, s') => (Some tt, s')
           end.
Definition get_cache : M dict := fun s => (Some (st_cache s), s).
Definition put_cache (c : dict) : M unit :=
  fun s => (Some tt, mkSt c (st_events s)).
Definition emit (e : event) : M unit :=
  fun s => (Some tt, mkSt (st_cache s) (st_events s ++ [e])).

Notation "x <- m ;; f" := (bind m (fun x => f)) (at level 61, m at next level, right associativity).
Notation "m ;;; f" := (bind m (fun _ => f)) (at level 61, right associativity).

Definition lift_opt {A} (o : option A) : M A :=
  match o with Some a => ret a | None => raise end.

(** [x.get(...)] / [x[...]] on a JSON value requires a dict. *)
Definition as_dict (v : json) : M dict :=
  match v with JObj d => ret d | _ => raise end.

(** Outcome of [get_ctf_details(slug)]: [requests] raised (transport error or
    a 200 body that is not JSON), or [r.json() if r.status_code == 200 else None]. *)
Inductive fetch_result := FetchRaise | FetchOk (v : option json).

(** The outside world during one run. *)
Record Env := mkEnv {
  env_now : Z;                             (* [now], microseconds since the epoch, UTC *)
  env_now_iso : string;                    (* [datetime.now(timezone.utc).isoformat()] *)
  env_details : string -> fetch_result;    (* the detail endpoint, by URL slug *)
  env_list : option json;                  (* [get_ctf_list()]; [None]: it raised *)
  env_smtp : message -> bool;              (* whether SMTP delivery succeeds *)
  env_date_parse : string -> option datetime  (* [date_parser.parse]; [None]: it raised *)
}.

Section Cycle.
Variable env : Env.

Definition get_ctf_details (slug : string) : M (option json) :=
  match env_details env slug with
  | FetchRaise => raise
  | FetchOk v => ret v
  end.

(** [send_email] never raises; it returns whether delivery succeeded. *)
Definition send_email (m : message) : M bool :=
  let ok := env_smtp env m in emit (ESend m ok) ;;; ret ok.

(** [save_cache(cache)]: the file is rewritten with the whole cache. *)
Definition save_cache : M unit := c <- get_cache ;; emit (ESave c).

Definition reminder_window : Z := (72 * 3600 * 1000000)%Z.

(** The body of the reminder loop for one [(cid, info)] of the snapshot
    [list(cache.items())], without its [try]. *)
Definition reminder_body (cid : string) (info : json) : M unit :=
  infod <- as_dict info ;;
  sa <- lift_opt (match dict_get infod "starts_at" with Some (JStr s) => Some s | _ => None end) ;;
  dt <- lift_opt (env_date_parse env sa) ;;
  start <- lift_opt (utc_micros dt) ;;
  let delta := (start - env_now env)%Z in
  if negb (truthy_opt (dict_get infod "reminder_sent"))
     && Z.leb 0 delta && Z.leb delta reminder_window then
    slug <- lift_opt (dict_get infod "slug") ;;
    detail <- get_ctf_details (py_str slug) ;;
    match detail with
    | Some dv =>
        if truthy dv then
          d <- as_dict dv ;;
          _ <- send_email (MsgReminder (py_str slug) (dict_get d "name")) ;;
          c <- get_cache ;;
          entry <- lift_opt (dict_get c cid) ;;
          e <- as_dict entry ;;
          put_cache (dict_set c cid (JObj (dict_set e "reminder_sent" (JBool true)))) ;;;
          save_cache
        else ret tt
    | None => ret tt
    end
  else ret tt.

Fixpoint reminder_loop (items : list (string * json)) : M unit :=
  match items with
  | [] => ret tt
  | (cid, info) :: rest => try_pass (reminder_body cid info) ;;; reminder_loop rest
  end.

(** The reminder pass over a snapshot of the cache. *)
Definition reminder_pass : M unit := c <- get_cache ;; reminder_loop c.

(** [build_email_body] calls [clean_description], whose [html.unescape]
    raises on a truthy [description] that is not a string. *)
Definition build_email_body_ok (detail : dict) : bool :=
  match dict_get detail "description" with
  | Some (JStr _) | None => true
  | Some v => negb (truthy v)
  end.

(** Python [a or b] on [dict.get] results. *)
Definition py_or (a b : option json) : option json :=
  if truthy_opt a then a else b.

Definition json_of_opt (v : option json) : json :=
  match v with Some x => x | None => JNull end.

(** The record stored by the discovery pass. *)
Definition new_record (ctf detail : dict) : json :=
  JObj [("slug", json_of_opt (dict_get ctf "slug"));
        ("starts_at", json_of_opt (py_or (dict_get ctf "startDate") (dict_get detail "starts_at")));
        ("checked", JStr (env_now_iso env));
        ("reminder_sent", JBool false)].

(** One iteration of the discovery loop for a summary [ctf]. *)
Definition discovery_body (ctfv : json) : M unit :=
  ctf <- as_dict ctfv ;;
  let cid := py_str_opt (dict_get ctf "id") in
  let slug := dict_get ctf "slug" in
  c <- get_cache ;;
  if String.eqb cid EmptyString || dict_mem cid c then ret tt
  else
    (* time.sleep(SLEEP_BETWEEN_DETAILS) *)
    detail <- get_ctf_details (py_str_opt slug) ;;
    if negb (truthy_opt detail) then ret tt
    else
      d <- as_dict (json_of_opt detail) ;;
      let '(matched, token) := is_free_or_has_token d in
      if matched then
        (if build_email_body_ok d then ret tt else raise) ;;;
        _ <- send_email (MsgDiscovery ctf d token) ;;
        c' <- get_cache ;;
        put_cache (dict_set c' cid (new_record ctf d)) ;;;
        save_cache
      else ret tt.

Fixpoint discovery_loop (ctfs : list json) : M unit :=
  match ctfs with
  | [] => ret tt
  | ctf :: rest => discovery_body ctf ;;; discovery_loop rest
  end.

(** [for ctf in ctfs]: iterating a list; an empty dict or string yields
    nothing; any other value makes [ctf.get] or the iteration raise. *)
Definition iter_catalog (v : json) : M (list json) :=
  match v with
  | JArr l => ret l
  | JObj [] | JStr EmptyString => ret []
  | _ => raise
  end.

(** The discovery pass; a failing [get_ctf_list()] ends the run quietly. *)
Definition discovery_pass : M unit :=
  match env_list env with
  | None => ret tt
  | Some v => ctfs <- iter_catalog v ;; discovery_loop ctfs
  end.

(** [main()] after [load_cache()]: the loaded value must be a dict for
    [cache.items()]. *)
Definition main_with (loaded : json) : M unit :=
  c <- as_dict loaded ;; put_cache c ;;; reminder_pass ;;; discovery_pass.

End Cycle.

(** Running a computation from a cache with an empty effect log. *)
Definition run {A} (m : M A) (c : dict) : option A * St := m (mkSt c []).

Fixpoint sends (l : list event) : list (message * bool) :=
  match l with
  | [] => []
  | ESend m ok :: t => (m, ok) :: sends t
  | ESave _ :: t => sends t
  end.

(* ------------------------------------------------------------------ *)
(** ** The banner image [choose_avatar] *)

(** [str.lstrip()] and [str.rstrip()] with no argument strip the
    characters of [str.isspace], the class [is_space] on code points below 256. *)
Fixpoint py_lstrip (s : string) : string :=
  match s with
  | EmptyString => EmptyString
  | String c s' => if is_space c then py_lstrip s' else s
  end.

Fixpoint py_rstrip (s : string) : string :=
  match s with
  | EmptyString => EmptyString
  | String c s' =>
      let r := py_rstrip s' in
      if String.eqb r EmptyString && is_space c then EmptyString else String c r
  end.

(** [str.strip()] *)
Definition py_strip (s : string) : string := py_rstrip (py_lstrip s).

Definition avatar_keys : list string := ["banner"; "logo"; "avatar"; "image"; "banner_image"].

(** The loop of [choose_avatar] over the remaining keys. *)
Fixpoint choose_avatar_from (detail ctf_summary : dict) (keys : list string) : option string :=
  match keys with
  | [] => None
  | key :: keys' =>
      match py_or (dict_get detail key) (dict_get ctf_summary key) with
      | Some (JStr v) =>
          if negb (String.eqb (py_strip v) EmptyString) then
            if String.prefix "http" v then Some v
            else if String.prefix "//" v then Some ("https:" ++ v)
            else if String.prefix "/" v then Some ("https://ctf.hackthebox.com" ++ v)
            else choose_avatar_from detail ctf_summary keys'
          else choose_avatar_from detail ctf_summary keys'
      | _ => choose_avatar_from detail ctf_summary keys'
      end
  end.

(** [choose_avatar(detail, ctf_summary)] *)
Definition choose_avatar (detail ctf_summary : dict) : option string :=
  choose_avatar_from detail ctf_summary avatar_keys.

(* ------------------------------------------------------------------ *)
(** ** The cache file: [json.dump(cache, f, indent=2)] and [json.load(f)] *)

Definition nl : ascii := ascii_of_nat 10.
Definition backslash : ascii := ascii_of_nat 92.

Fixpoint indent (n : nat) : string :=
  match n with O => EmptyString | S n' => String " "%char (String " "%char (indent n')) end.

(** A newline followed by the indentation of level [n] ([indent=2]). *)
Definition nl_indent (n : nat) : string := String nl (indent n).

(** [py_encode_basestring_ascii] for one character: the double quote, the
    backslash and the five short escapes, [\u00XX] for anything outside the
    printable ASCII range 32..126. *)
Definition escape_char (c : ascii) : string :=
  let n := nat_of_ascii c in
  if Nat.eqb n 34 then String backslash (String dquote EmptyString)
  else if Nat.eqb n 92 then String backslash (String backslash EmptyString)
  else if Nat.eqb n 10 then String backslash (String "n"%char EmptyString)
  else if Nat.eqb n 13 then String backslash (String "r"%char EmptyString)
  else if Nat.eqb n 9 then String backslash (String "t"%char EmptyString)
  else if Nat.eqb n 8 then String backslash (String "b"%char EmptyString)
  else if Nat.eqb n 12 then String backslash (String "f"%char EmptyString)
  else if Nat.ltb n 32 || Nat.leb 127 n
  then String backslash (String "u"%char (String "0"%char (String "0"%char (hex2 n))))
  else String c EmptyString.

Fixpoint escape_body (s : string) : string :=
  match s with
  | EmptyString => EmptyString
  | String c s' => escape_char c ++ escape_body s'
  end.

Definition dump_str (s : string) : string :=
  String dquote (escape_body s ++ String dquote EmptyString).

(** The items of a non-empty container at level [lvl], separated by [","]
    and a fresh indented line. *)
Fixpoint dump_items {A} (f : A -> string) (lvl : nat) (l : list A) : string :=
  match l with
  | [] => EmptyString
  | x :: t =>
      nl_indent (S lvl) ++ f x
      ++ match t with [] => EmptyString | _ => "," ++ dump_items f lvl t end
  end.

(** [json.dumps(v, indent=2)] at nesting level [lvl]; non-integer numbers
    are printed by their source text. *)
Fixpoint dump (lvl : nat) (v : json) {struct v} : string :=
  match v with
  | JNull => "null"
  | JBool true => "true"
  | JBool false => "false"
  | JInt z => Z_to_dec z
  | JNum c t => String c t
  | JStr s => dump_str s
  | JArr [] => "[]"
  | JArr l => "[" ++ dump_items (dump (S lvl)) lvl l ++ nl_indent lvl ++ "]"
  | JObj [] => "{}"
  | JObj l =>
      "{" ++ dump_items (fun kv => dump_str (fst kv) ++ ": " ++ dump (S lvl) (snd kv)) lvl l
      ++ nl_indent lvl ++ "}"
  end.

(** [json.loads], standard decoder, [strict=True]. *)
Definition is_json_ws (c : ascii) : bool :=
  let n := nat_of_ascii c in
  Nat.eqb n 32 || Nat.eqb n 9 || Nat.eqb n 10 || Nat.eqb n 13.

Fixpoint skip_ws (s : string) : string :=
  match s with
  | String c s' => if is_json_ws c then skip_ws s' else s
  | EmptyString => EmptyString
  end.

Definition hex_val (c : ascii) : option nat :=
  let n := nat_of_ascii c in
  if Nat.leb 48 n && Nat.leb n 57 then Some (n - 48)
  else if Nat.leb 97 n && Nat.leb n 102 then Some (n - 87)
  else if Nat.leb 65 n && Nat.leb n 70 then Some (n - 55)
  else None.

Definition hex4 (a b c d : ascii) : option nat :=
  match hex_val a, hex_val b, hex_val c, hex_val d with
  | Some x1, Some x2, Some x3, Some x4 => Some (((x1 * 16 + x2) * 16 + x3) * 16 + x4)
  | _, _, _, _ => None
  end.

Definition simple_escape (e : ascii) : option ascii :=
  let n := nat_of_ascii e in
  if Nat.eqb n 34 then Some dquote
  else if Nat.eqb n 92 then Some backslash
  else if Nat.eqb n 47 then Some "/"%char
  else if Nat.eqb n 98 then Some (ascii_of_nat 8)
  else if Nat.eqb n 102 then Some (ascii_of_nat 12)
  else if Nat.eqb n 110 then Some nl
  else if Nat.eqb n 114 then Some (ascii_of_nat 13)
  else if Nat.eqb n 116 then Some (ascii_of_nat 9)
  else None.

Definition scons (c : ascii) (o : option (string * string)) : option (string * string) :=
  match o with Some (t, r) => Some (String c t, r) | None => None end.

(** [scanstring] after the opening quote: the decoded text and the rest
    after the closing quote.  Control characters are rejected; an escape
    [\uXXXX] beyond code point 255 is outside the model. *)
Fixpoint scan_str (s : string) : option (string * string) :=
  match s with
  | EmptyString => None
  | String c r =>
      if Ascii.eqb c dquote then Some (EmptyString, r)
      else if Ascii.eqb c backslash then
        match r with
        | String "u"%char (String h1 (String h2 (String h3 (String h4 r')))) =>
            match hex4 h1 h2 h3 h4 with
            | Some n => if Nat.ltb n 256 then scons (ascii_of_nat n) (scan_str r') else None
            | None => None
            end
        | String e r' =>
            match simple_escape e with
            | Some ch => scons ch (scan_str r')
            | None => None
            end
        | EmptyString => None
        end
      else if Nat.ltb (nat_of_ascii c) 32 then None
      else scons c (scan_str r)
  end.

Fixpoint digits_run (s : string) : string * string :=
  match s with
  | String c r =>
      match digit_val c with
      | Some _ => let '(d, r') := digits_run r in (String c d, r')
      | None => (EmptyString, s)
      end
  | EmptyString => (EmptyString, EmptyString)
  end.

Fixpoint dec_value (acc : Z) (s : string) : Z :=
  match s with
  | String c r => match digit_val c with Some d => dec_value (acc * 10 + d)%Z r | None => acc end
  | EmptyString => acc
  end.

(** [NUMBER_RE]: an optional minus sign, [0] or a non-zero digit followed by
    digits, an optional fraction, an optional exponent. *)
Definition scan_number (s : string) : option (json * string) :=
  let '(neg, s1) := match s with String "-"%char r => (true, r) | _ => (false, s) end in
  let int_part :=
    match s1 with
    | String "0"%char r => Some ("0"%char, EmptyString, r)
    | String c r =>
        match digit_val c with
        | Some _ => let '(d, r') := digits_run r in Some (c, d, r')
        | None => None
        end
    | EmptyString => None
    end in
  match int_part with
  | None => None
  | Some (c0, d0, r) =>
      let ip := String c0 d0 in
      let '(frac, r2) :=
        match r with
        | String "."%char r' =>
            match digits_run r' with
            | (EmptyString, _) => (EmptyString, r)
            | (d, r'') => (String "."%char d, r'')
            end
        | _ => (EmptyString, r)
        end in
      let '(ex, r3) :=
        match r2 with
        | String e r' =>
            if Ascii.eqb e "e"%char || Ascii.eqb e "E"%char then
              let '(sg, r'') := match r' with
                                | String "+"%char q => ("+", q)
                                | String "-"%char q => ("-", q)
                                | _ => (EmptyString, r') end in
              match digits_run r'' with
              | (EmptyString, _) => (EmptyString, r2)
              | (d, q) => (String e (sg ++ d), q)
              end
            else (EmptyString, r2)
        | EmptyString => (EmptyString, r2)
        end in
      if String.eqb frac EmptyString && String.eqb ex EmptyString
      then Some (JInt (if neg then Z.opp (dec_value 0 ip) else dec_value 0 ip), r3)
      else if neg then Some (JNum "-"%char (ip ++ frac ++ ex), r3)
      else Some (JNum c0 (d0 ++ frac ++ ex), r3)
  end.

(** Building a [dict] from the decoded pairs: a repeated key keeps its first
    position and its last value. *)
Definition dict_from_pairs (l : list (string * json)) : dict :=
  fold_left (fun d kv => dict_set d (fst kv) (snd kv)) l [].

Definition parser := string -> option (json * string).

(** The members of an object after its first member's opening quote. *)
Fixpoint parse_members (pv : parser) (m : nat) (s : string) (acc : list (string * json))
  : option (json * string) :=
  match m with
  | O => None
  | S m' =>
      match expect dquote s with
      | None => None
      | Some s0 =>
      match scan_str s0 with
      | None => None
      | Some (k, r) =>
          match expect ":"%char (skip_ws r) with
          | None => None
          | Some r1 =>
              match pv (skip_ws r1) with
              | None => None
              | Some (v, r2) =>
                  match skip_ws r2 with
                  | String ","%char r3 => parse_members pv m' (skip_ws r3) (acc ++ [(k, v)])
                  | String "}"%char r3 => Some (JObj (dict_from_pairs (acc ++ [(k, v)])), r3)
                  | _ => None
                  end
              end
          end
      end
      end
  end.

Fixpoint parse_elems (pv : parser) (m : nat) (s : string) (acc : list json)
  : option (json * string) :=
  match m with
  | O => None
  | S m' =>
      match pv s with
      | None => None
      | Some (v, r) =>
          match skip_ws r with
          | String ","%char r1 => parse_elems pv m' (skip_ws r1) (acc ++ [v])
          | String "]"%char r1 => Some (JArr (acc ++ [v]), r1)
          | _ => None
          end
      end
  end.

Definition starts_with (p s : string) : option string :=
  if String.prefix p s then Some (substring (String.length p) (String.length s - String.length p) s)
  else None.

(** [scan_once]: one value at the head of [s]; [n] bounds the nesting and
    the number of members, and [length s] always suffices. *)
Fixpoint parse_value (n : nat) (s : string) : option (json * string) :=
  match n with
  | O => None
  | S n' =>
      match s with
      | String c r =>
          if Ascii.eqb c dquote then
            match scan_str r with Some (t, r') => Some (JStr t, r') | None => None end
          else if Ascii.eqb c "{"%char then
            match skip_ws r with
            | String "}"%char r' => Some (JObj [], r')
            | r' => parse_members (parse_value n') n' r' []
            end
          else if Ascii.eqb c "["%char then
            match skip_ws r with
            | String "]"%char r' => Some (JArr [], r')
            | r' => parse_elems (parse_value n') n' r' []
            end
          else
            match starts_with "null" s with Some r' => Some (JNull, r') | None =>
            match starts_with "true" s with Some r' => Some (JBool true, r') | None =>
            match starts_with "false" s with Some r' => Some (JBool false, r') | None =>
            match scan_number s with Some x => Some x | None =>
            match starts_with "NaN" s with Some r' => Some (JNum "N"%char "aN", r') | None =>
            match starts_with "Infinity" s with Some r' => Some (JNum "I"%char "nfinity", r') | None =>
            match starts_with "-Infinity" s with Some r' => Some (JNum "-"%char "Infinity", r') | None =>
              None
            end end end end end end end
      | EmptyString => None
      end
  end.

(** [json.loads(s)]: one value, surrounded by optional whitespace. *)
Definition json_loads (s : string) : option json :=
  match parse_value (String.length s) (skip_ws s) with
  | Some (v, r) => if String.eqb (skip_ws r) EmptyString then Some v else None
  | None => None
  end.

(** The cache file as [load_cache] finds it. *)
Inductive cache_file :=
| FileMissing                 (* [os.path.exists(CACHE_FILE)] is false *)
| FileUnreadable              (* [open] or UTF-8 decoding raises *)
| FileText (s : string).      (* the decoded text *)

(** [load_cache] *)
Definition load_cache (f : cache_file) : json :=
  match f with
  | FileMissing => JObj []
  | FileUnreadable => JObj []
  | FileText s =>
      match json_loads s with
      | Some v => v
      | None => JObj []
      end
  end.

(** [save_cache]: the file holds [json.dumps(cache, indent=2)]. *)
Definition save_cache_file (c : dict) : cache_file := FileText (dump 0 (JObj c)).

(** Pairwise distinct keys, as in every Python dict. *)
Fixpoint distinct_keys (l : list string) : bool :=
  match l with
  | [] => true
  | k :: t => negb (existsb (String.eqb k) t) && distinct_keys t
  end.

(** JSON values built from dicts (with distinct keys), lists, strings,
    booleans and [None]: everything a tracking record stores. *)
Fixpoint plain_json (v : json) : bool :=
  match v with
  | JNull | JBool _ | JStr _ => true
  | JInt _ | JNum _ _ => false
  | JArr l => forallb plain_json l
  | JObj l => distinct_keys (map fst l) && forallb (fun kv => plain_json (snd kv)) l
  end.

(* ------------------------------------------------------------------ *)
(** ** Fixtures and auxiliary definitions for the proofs *)

Fixpoint group_free (r : regex) : bool :=
  match r with
  | RChar _ | RRep _ _ _ => true
  | RSeq r1 r2 | RAlt r1 r2 => group_free r1 && group_free r2
  | RGroup _ => false
  end.

(** The regexes of the program end in a capturing group of a repetition. *)
Fixpoint tail_group_lo (r : regex) : option nat :=
  match r with
  | RSeq r1 r2 => if group_free r1 then tail_group_lo r2 else None
  | RGroup (RRep _ lo _) => Some lo
  | _ => None
  end.

Fixpoint all_tok (s : string) : bool :=
  match s with
  | EmptyString => true
  | String c s' => is_tok_char c && all_tok s'
  end.

(** Every character of [s] is in the class [p]. *)
Fixpoint str_all (p : ascii -> bool) (s : string) : bool :=
  match s with
  | EmptyString => true
  | String c s' => p c && str_all p s'
  end.

(** The class and the bounds of the repetition in the final capturing group. *)
Fixpoint tail_group (r : regex) : option ((ascii -> bool) * nat * option nat) :=
  match r with
  | RSeq r1 r2 => if group_free r1 then tail_group r2 else None
  | RGroup (RRep p lo hi) => Some (p, lo, hi)
  | _ => None
  end.

(** The text after a captured value: its end, or a character outside the class. *)
Definition stops_token (s : string) : bool :=
  match s with
  | EmptyString => true
  | String c _ => negb (is_tok_char c)
  end.

Definition url_value_re : regex := RGroup (RRep is_tok_char 4 (Some 80)).

(** No match of [r] starts at a position of [pre] in the text [pre ++ x]. *)
Fixpoint no_match_before (r : regex) (pre x : string) : bool :=
  match pre with
  | EmptyString => true
  | String _ pre' =>
      match mt r (pre ++ x) None cont_done with None => true | Some _ => false end
      && no_match_before r pre' x
  end.

(** A small concrete world: every detail is public, every e-mail goes out. *)
Definition demo_detail : json := JObj [("hasCode", JBool false); ("name", JStr "Demo CTF")].

Definition demo_env (now : Z) (catalog : json) (details : string -> fetch_result)
  (smtp_ok : bool) : Env :=
  mkEnv now "2024-03-01T00:00:00+00:00" details (Some catalog) (fun _ => smtp_ok)
        date_parser_parse.

Definition public_details : string -> fetch_result := fun _ => FetchOk (Some demo_detail).

Definition due_reminder (env : Env) (infod : dict) (start : Z) : bool :=
  negb (truthy_opt (dict_get infod "reminder_sent"))
  && Z.leb 0 (start - env_now env) && Z.leb (start - env_now env) reminder_window.

Definition reminded (c : dict) (cid : string) (infod : dict) : dict :=
  dict_set c cid (JObj (dict_set infod "reminder_sent" (JBool true))).

(** How the reminder pass may change a stored value: not at all, or by
    setting the record's [reminder_sent] to [True]. *)
Definition reminder_update (v v' : json) : Prop :=
  v' = v \/ exists e, v = JObj e /\ v' = JObj (dict_set e "reminder_sent" (JBool true)).

(** The reminder that [reminder_body] sends for a stored value, with the
    record it then marks; [None] when it sends nothing. *)
Definition reminder_due_msg (env : Env) (info : json) : option (message * dict) :=
  match info with
  | JObj infod =>
      match dict_get infod "starts_at" with
      | Some (JStr sa) =>
          match env_date_parse env sa with
          | Some dt =>
              match utc_micros dt with
              | Some start =>
                  if due_reminder env infod start then
                    match dict_get infod "slug" with
                    | Some slug =>
                        match env_details env (py_str slug) with
                        | FetchOk (Some dv) =>
                            if truthy dv then
                              match dv with
                              | JObj d => Some (MsgReminder (py_str slug) (dict_get d "name"), infod)
                              | _ => None
                              end
                            else None
                        | _ => None
                        end
                    | None => None
                    end
                  else None
              | None => None
              end
          | None => None
          end
      | _ => None
      end
  | _ => None
  end.

(** [m] is a reminder for a record of [items], with the record's slug. *)
Definition reminder_source (items : dict) (m : message) : Prop :=
  exists cid infod slug n, In (cid, JObj infod) items /\ dict_get infod "slug" = Some slug /\
                           m = MsgReminder (py_str slug) n.

(** The value stored after the reminder pass, for a value the pass finds
    in the cache. *)
Definition mark_value (env : Env) (v : json) : json :=
  match reminder_due_msg env v with
  | Some (_, infod) => JObj (dict_set infod "reminder_sent" (JBool true))
  | None => v
  end.

(** The cache after a reminder pass over a cache with distinct keys. *)
Definition mark_reminded (env : Env) (c : dict) : dict :=
  map (fun kv => (fst kv, mark_value env (snd kv))) c.

(** The record of a CTF starting at [start_text], tracked under ["42"]. *)
Definition demo_record (start_text : string) (sent : bool) : dict :=
  [("slug", JStr "demo-ctf"); ("starts_at", JStr start_text);
   ("checked", JStr "2024-03-01T00:00:00+00:00"); ("reminder_sent", JBool sent)].

(** 2024-03-01T00:00:00Z, in microseconds. *)
Definition demo_now : Z := (1709251200 * 1000000)%Z.

(** A catalog with one public CTF. *)
Definition demo_catalog : json := JArr [JObj [("id", JInt 7); ("slug", JStr "demo-ctf")]].

(** A demo world and a cache with a record due for a reminder and one that is not. *)
Definition reminder_demo_env : Env :=
  demo_env demo_now demo_catalog public_details true.

Definition reminder_demo_cache : dict :=
  [("42", JObj (demo_record "2024-03-02T12:00:00Z" false));
   ("43", JObj (demo_record "2024-03-20T12:00:00Z" false))].

(** What one iteration of the discovery loop does: raise before any effect,
    skip the summary, or send a message and store a record under a key. *)
Inductive outcome :=
| ORaise
| OSkip
| OAdd (k : string) (m : message) (rcd : json).

(** The outcome of [discovery_body] on [ctfv] against the cache [c]. *)
Definition body_outcome (env : Env) (ctfv : json) (c : dict) : outcome :=
  match ctfv with
  | JObj ctf =>
      let cid := py_str_opt (dict_get ctf "id") in
      if String.eqb cid EmptyString || dict_mem cid c then OSkip
      else
        match env_details env (py_str_opt (dict_get ctf "slug")) with
        | FetchRaise => ORaise
        | FetchOk detail =>
            if negb (truthy_opt detail) then OSkip
            else
              match json_of_opt detail with
              | JObj d =>
                  let '(matched, token) := is_free_or_has_token d in
                  if matched then
                    if build_email_body_ok d
                    then OAdd cid (MsgDiscovery ctf d token) (new_record env ctf d)
                    else ORaise
                  else OSkip
              | _ => ORaise
              end
        end
  | _ => ORaise
  end.

Definition interp (env : Env) (o : outcome) (c : dict) (evs : list event) : option unit * St :=
  match o with
  | ORaise => (None, mkSt c evs)
  | OSkip => (Some tt, mkSt c evs)
  | OAdd k m rcd =>
      (Some tt, mkSt (dict_set c k rcd) (evs ++ [ESend m (env_smtp env m); ESave (dict_set c k rcd)]))
  end.

(** A summary passes classification in [env]: it is a dict whose detail
    fetch returns a non-empty dict that [is_free_or_has_token] accepts. *)
Definition classified_eligible (env : Env) (ctf : dict) : Prop :=
  exists d, env_details env (py_str_opt (dict_get ctf "slug")) = FetchOk (Some (JObj d)) /\
            d <> [] /\ fst (is_free_or_has_token d) = true.

(** Details: the CTF [locked-ctf] needs a code and publishes none. *)
Definition mixed_details (slug : string) : fetch_result :=
  if String.eqb slug "locked-ctf"
  then FetchOk (Some (JObj [("hasCode", JBool true); ("name", JStr "Locked CTF")]))
  else FetchOk (Some demo_detail).

Definition mixed_catalog : json :=
  JArr [JObj [("id", JInt 7); ("slug", JStr "demo-ctf")];
        JObj [("id", JInt 8); ("slug", JStr "locked-ctf")]].

Definition head_code (s : string) : nat :=
  match s with String c _ => nat_of_ascii c | EmptyString => 0 end.

(** A world with the public [demo-ctf] (key ["7"]) and the locked [locked-ctf]. *)
Definition mixed_env_demo : Env := demo_env demo_now mixed_catalog mixed_details true.

(** Details: the request for [flaky-ctf] fails with an exception. *)
Definition flaky_details (slug : string) : fetch_result :=
  if String.eqb slug "flaky-ctf" then FetchRaise else FetchOk (Some demo_detail).

Definition flaky_head : json := JObj [("id", JInt 7); ("slug", JStr "demo-ctf")].
Definition flaky_ctf : dict := [("id", JInt 8); ("slug", JStr "flaky-ctf")].
Definition flaky_tail : json := JObj [("id", JInt 9); ("slug", JStr "late-ctf")].

Definition flaky_env : Env :=
  mkEnv demo_now "2024-03-01T00:00:00+00:00" flaky_details
        (Some (JArr [flaky_head; JObj flaky_ctf; flaky_tail])) (fun _ => true)
        date_parser_parse.

(** Two tracking records, with a quote, a newline and a non-ASCII character
    in their strings. *)
Definition demo_cache : dict :=
  [("7", JObj [("slug", JStr "demo-ctf"); ("starts_at", JStr "2024-03-01T10:00:00Z");
               ("checked", JStr "2024-03-01T00:00:00+00:00"); ("reminder_sent", JBool false)]);
   ("None", JObj [("slug", JStr ("a" ++ String dquote (String nl (String (ascii_of_nat 233) EmptyString))));
                  ("starts_at", JNull);
                  ("checked", JStr "2024-03-01T00:00:00+00:00"); ("reminder_sent", JBool true)])].

(** A character of the text [json.dump] writes: a newline or printable ASCII. *)
Definition dump_char_ok (c : ascii) : bool :=
  let n := nat_of_ascii c in Nat.eqb n 10 || (Nat.leb 32 n && Nat.leb n 126).

(** The source texts of the non-integer numbers in [v] are printable
    ASCII, as they are for every number [json.loads] reads. *)
Fixpoint lexemes_printable (v : json) : bool :=
  match v with
  | JNum c t => str_all dump_char_ok (String c t)
  | JArr l => forallb lexemes_printable l
  | JObj l => forallb (fun kv => lexemes_printable (snd kv)) l
  | _ => true
  end.

(* ================================================================== *)
(** * Properties *)

(** ** Sanity checks on concrete inputs *)

Example extract_join_code :
  extract_token_from_text "Join Code: abc-123" = Some "abc-123".
Proof. vm_compute. reflexivity. Qed.

Example extract_url_first :
  extract_token_from_text "token: WXYZ9 see https://x/?code=ABCD1234" = Some "ABCD1234".
Proof. vm_compute. reflexivity. Qed.

Example classify_public :
  is_free_or_has_token [("hasCode", JBool false)] = (true, None).
Proof. reflexivity. Qed.

Example classify_locked_with_code :
  is_free_or_has_token [("hasCode", JBool true);
                        ("instructions", JStr "Use invite code = HTB-2024 to join")]
  = (true, Some "HTB-2024").
Proof. vm_compute. reflexivity. Qed.

Example classify_locked :
  is_free_or_has_token [("hasCode", JInt 1); ("description", JStr "Private event")]
  = (false, None).
Proof. vm_compute. reflexivity. Qed.

Example format_utc :
  format_datetime date_parser_parse (Some "2024-03-01T18:30:00Z") = "2024-03-01 18:30 UTC".
Proof. reflexivity. Qed.

Example epoch_2024 :
  utc_micros (mkdt 2024 3 1 0 0 0 0 (Some 0%Z)) = Some (1709251200 * 1000000)%Z.
Proof. reflexivity. Qed.

Example loads_dump_sample :
  let v := JObj [("a", JArr [JInt 1; JNum "-"%char "2.5e3"; JNull]);
                 ("b", JObj [("c", JStr ("x" ++ chr 10 ++ chr 200 ++ chr 34))])] in
  json_loads (dump 0 v) = Some v.
Proof. vm_compute. reflexivity. Qed.

Example loads_truncated : json_loads "{" = None.
Proof. reflexivity. Qed.

(** ** Strings *)

Lemma append_nil_r (s : string) : s ++ EmptyString = s.
Proof. induction s; simpl; congruence. Qed.

Lemma append_assoc_s (a b c : string) : (a ++ b) ++ c = a ++ (b ++ c).
Proof. induction a; simpl; congruence. Qed.

Lemma length_append_s (a b : string) : String.length (a ++ b) = String.length a + String.length b.
Proof. induction a; simpl; congruence. Qed.

Lemma substring_0_length (s : string) : substring 0 (String.length s) s = s.
Proof. induction s; simpl; congruence. Qed.

Lemma substring_suffix (a b : string) :
  substring (String.length a) (String.length b) (a ++ b) = b.
Proof. induction a; simpl; [apply substring_0_length | exact IHa]. Qed.

Lemma substring_prefix (a b : string) :
  substring 0 (String.length a) (a ++ b) = a.
Proof. induction a; simpl; [destruct b; reflexivity | congruence]. Qed.

Lemma length_substring_tail (m : nat) (s : string) :
  m <= String.length s ->
  String.length (substring m (String.length s - m) s) = String.length s - m.
Proof.
  revert m; induction s; intros [|m] H; simpl in *; try lia.
  - rewrite substring_0_length; reflexivity.
  - apply IHs; lia.
Qed.

Lemma length_substring_head (m : nat) (s : string) :
  m <= String.length s -> String.length (substring 0 m s) = m.
Proof.
  revert m; induction s; intros [|m] H; simpl in *; try lia.
  rewrite IHs; lia.
Qed.

(** ** The regex matcher *)

Lemma run_len_le p hi s : run_len p hi s <= String.length s.
Proof.
  revert hi; induction s as [|a s IHs]; intros hi.
  - destruct hi as [[|]|]; simpl; lia.
  - destruct hi as [[|n]|]; simpl; [lia | generalize (IHs (Some n)) | generalize (IHs None)];
      destruct (p a); simpl; lia.
Qed.

Lemma mt_rep_inv p lo hi s g k x :
  mt (RRep p lo hi) s g k = Some x ->
  exists m, lo <= m /\ m <= String.length s
            /\ k (substring m (String.length s - m) s) g = Some x.
Proof.
  simpl. pose proof (run_len_le p hi s) as Hle. revert Hle.
  generalize (run_len p hi s) as n. intros n Hn.
  induction n as [|n IH]; intros H.
  - destruct (Nat.ltb 0 lo) eqn:E; [discriminate|].
    apply Nat.ltb_ge in E.
    destruct (k _ g) eqn:Ek; [|discriminate].
    exists 0; repeat split; try lia. congruence.
  - destruct (Nat.ltb (S n) lo) eqn:E; [discriminate|].
    apply Nat.ltb_ge in E.
    destruct (k _ g) eqn:Ek.
    + exists (S n); repeat split; try lia. congruence.
    + destruct (IH ltac:(lia) H) as (m & H1 & H2 & H3). exists m; auto.
Qed.

Lemma mt_group_free r :
  group_free r = true -> forall s g k x, mt r s g k = Some x -> exists s', k s' g = Some x.
Proof.
  induction r; simpl; intros Hg s g k x H; try discriminate.
  - destruct s; [discriminate|]. destruct (p a); [eauto|discriminate].
  - apply andb_true_iff in Hg as [H1 H2].
    destruct (IHr1 H1 _ _ _ _ H) as [s' Hs']. eapply IHr2; eauto.
  - apply andb_true_iff in Hg as [H1 H2].
    destruct (mt r1 s g k) eqn:E.
    + inversion H; subst. eapply IHr1; eauto.
    + eapply IHr2; eauto.
  - destruct (mt_rep_inv p lo hi s g k x H) as (m & _ & _ & Hk); eauto.
Qed.

Lemma mt_tail_group r lo :
  tail_group_lo r = Some lo ->
  forall s g x, mt r s g cont_done = Some x ->
  exists t, x = Some t /\ lo <= String.length t.
Proof.
  induction r; simpl; intros Hl s g x H; try discriminate.
  - destruct (group_free r1) eqn:Hg; [|discriminate].
    destruct (mt_group_free r1 Hg _ _ _ _ H) as [s' Hs'].
    eapply IHr2; eauto.
  - destruct r; try discriminate. inversion Hl; subst.
    destruct (mt_rep_inv p lo hi s g _ x H) as (m & H1 & H2 & H3).
    unfold cont_done in H3. inversion H3; subst.
    eexists; split; [reflexivity|].
    rewrite length_substring_tail by lia.
    rewrite length_substring_head by lia. lia.
Qed.

Lemma re_search_tail_group r lo s x :
  tail_group_lo r = Some lo -> re_search r s = Some x ->
  exists t, x = Some t /\ lo <= String.length t.
Proof.
  intros Hl. induction s; simpl; intros H;
    destruct (mt r _ None cont_done) eqn:E; try (inversion H; subst; eapply mt_tail_group; eauto; fail);
    try discriminate; auto.
Qed.

Lemma extract_token_length text t :
  extract_token_from_text text = Some t -> 4 <= String.length t.
Proof.
  unfold extract_token_from_text.
  destruct (String.eqb text EmptyString); [discriminate|].
  destruct (re_search URL_TOKEN_RE text) as [x|] eqn:E1.
  - intros ->. destruct (re_search_tail_group URL_TOKEN_RE 4 _ _ eq_refl E1) as (t' & Ht & Hl).
    inversion Ht; subst; lia.
  - destruct (re_search TOKEN_RE text) as [x|] eqn:E2; [|discriminate].
    intros ->. destruct (re_search_tail_group TOKEN_RE 4 _ _ eq_refl E2) as (t' & Ht & Hl).
    inversion Ht; subst; lia.
Qed.

(** ** C2: the eligibility classifier *)

(** C2: a detail whose [hasCode] is absent or [false] is eligible with no
    token; one whose [hasCode] is [true] is eligible exactly when a token is
    extracted from the newline-joined five free-text fields, with that
    token, and ineligible with no token otherwise; an absent field
    contributes the empty text. *)
Theorem is_free_or_has_token_spec (d : dict) :
  ((dict_get d "hasCode" = None \/ dict_get d "hasCode" = Some (JBool false)) ->
     is_free_or_has_token d = (true, None)) /\
  (dict_get d "hasCode" = Some (JBool true) ->
     is_free_or_has_token d =
       match extract_token_from_text (join_nl (map (get_text d) free_text_keys)) with
       | Some t => (true, Some t)
       | None => (false, None)
       end) /\
  (forall k, dict_get d k = None -> get_text d k = EmptyString).
Proof.
  split; [|split].
  - unfold is_free_or_has_token. intros [H|H]; rewrite H; reflexivity.
  - intros H. unfold is_free_or_has_token. rewrite H. simpl.
    destruct (extract_token_from_text _) as [t|] eqn:E; [|reflexivity].
    apply extract_token_length in E. destruct t; simpl in *; [lia | reflexivity].
  - intros k H. unfold get_text. rewrite H. reflexivity.
Qed.

Lemma is_free_or_has_token_spec_witness :
  is_free_or_has_token [("hasCode", JBool false)] = (true, None) /\
  is_free_or_has_token [("hasCode", JBool true); ("join_instructions", JStr "join key: Q7-ZZ")]
    = (true, Some "Q7-ZZ") /\
  get_text [("hasCode", JBool true)] "instructions" = EmptyString.
Proof.
  split; [|split].
  - exact (proj1 (is_free_or_has_token_spec [("hasCode", JBool false)]) (or_intror eq_refl)).
  - rewrite (proj1 (proj2 (is_free_or_has_token_spec
                             [("hasCode", JBool true); ("join_instructions", JStr "join key: Q7-ZZ")]))
               eq_refl).
    vm_compute. reflexivity.
  - exact (proj2 (proj2 (is_free_or_has_token_spec [("hasCode", JBool true)])) "instructions" eq_refl).
Defined.

(** ** C8: precedence of the URL-parameter pattern *)

Lemma run_len_tok v post n :
  all_tok v = true -> stops_token post = true -> String.length v <= n ->
  run_len is_tok_char (Some n) (v ++ post) = String.length v.
Proof.
  revert n; induction v as [|c v IH]; intros n Hv Hp Hn; simpl in *.
  - destruct post as [|c post]; destruct n; try reflexivity.
    simpl in Hp |- *. destruct (is_tok_char c); [discriminate|reflexivity].
  - apply andb_true_iff in Hv as [Hc Hv].
    destruct n as [|n]; [lia|]. rewrite Hc. simpl. rewrite IH; auto; lia.
Qed.

Lemma url_token_re_eq :
  URL_TOKEN_RE =
  RSeq (RChar is_qa)
  (RSeq (RAlt (lit "code") (RAlt (lit "token") (RAlt (lit "access_code") (lit "invite"))))
  (RSeq (RChar (ci_char "="%char)) url_value_re)).
Proof. reflexivity. Qed.

Lemma mt_url_value v post g :
  4 <= String.length v <= 80 -> all_tok v = true -> stops_token post = true ->
  mt url_value_re (v ++ post) g cont_done = Some (Some v).
Proof.
  intros Hl Hv Hp. unfold url_value_re. simpl mt.
  rewrite run_len_tok by (auto; lia).
  destruct (String.length v) as [|n] eqn:Ev; [lia|].
  rewrite (proj2 (Nat.ltb_ge (S n) 4)) by lia.
  unfold cont_done. rewrite <- Ev.
  rewrite length_append_s. replace (String.length v + String.length post - String.length v)
    with (String.length post) by lia.
  rewrite substring_suffix.
  replace (String.length v + String.length post - String.length post) with (String.length v) by lia.
  rewrite substring_prefix. reflexivity.
Qed.

Lemma re_search_skip r pre x :
  no_match_before r pre x = true -> re_search r (pre ++ x) = re_search r x.
Proof.
  induction pre as [|c pre IH]; simpl; intros H; [reflexivity|].
  apply andb_true_iff in H as [H1 H2].
  destruct (mt r (String c (pre ++ x)) None cont_done); [discriminate|].
  apply IH; exact H2.
Qed.

Lemma re_search_hit r s g :
  mt r s None cont_done = Some g -> re_search r s = Some g.
Proof. intros H. destruct s; simpl; rewrite H; reflexivity. Qed.

Lemma mt_url_at sep name v post :
  is_qa sep = true -> In name ["code"; "token"; "access_code"; "invite"] ->
  4 <= String.length v <= 80 -> all_tok v = true -> stops_token post = true ->
  mt URL_TOKEN_RE (String sep (name ++ String "="%char (v ++ post))) None cont_done
  = Some (Some v).
Proof.
  intros Hs Hn Hl Hv Hp. rewrite url_token_re_eq.
  destruct Hn as [<-|[<-|[<-|[<-|[]]]]]; cbn -[url_value_re]; rewrite Hs;
    unfold ci_char, lower; cbn -[url_value_re];
    rewrite mt_url_value by auto; reflexivity.
Qed.

(** C8 (amended): when a [?] or [&] followed by one of the parameter names
    [code], [token], [access_code], [invite], an [=] and a value of 4 to 80
    characters of [[A-Za-z0-9_-]] ending the run of such characters occurs in
    the text, and no URL-parameter match starts earlier, extraction returns
    that value, whatever labeled-token matches the text also contains. *)
Theorem url_pattern_precedence pre sep name v post :
  is_qa sep = true -> In name ["code"; "token"; "access_code"; "invite"] ->
  4 <= String.length v <= 80 -> all_tok v = true -> stops_token post = true ->
  no_match_before URL_TOKEN_RE pre (String sep (name ++ String "="%char (v ++ post))) = true ->
  extract_token_from_text (pre ++ String sep (name ++ String "="%char (v ++ post))) = Some v.
Proof.
  intros Hs Hn Hl Hv Hp Hpre. unfold extract_token_from_text.
  destruct (String.eqb _ EmptyString) eqn:E.
  - apply String.eqb_eq in E. destruct pre; discriminate.
  - rewrite re_search_skip by exact Hpre.
    rewrite (re_search_hit _ _ _ (mt_url_at sep name v post Hs Hn Hl Hv Hp)). reflexivity.
Qed.

Lemma url_pattern_precedence_witness :
  extract_token_from_text ("token: WXYZ9 see https://x/" ++ "?code=ABCD1234" ++ " now")
  = Some "ABCD1234".
Proof.
  apply (url_pattern_precedence "token: WXYZ9 see https://x/" "?"%char "code" "ABCD1234" " now").
  - reflexivity.
  - simpl; auto.
  - simpl; lia.
  - reflexivity.
  - reflexivity.
  - vm_compute. reflexivity.
Defined.

(** C8 (counterexample): the text contains [?code=ABCD1234], yet extraction
    returns the value of an earlier URL-parameter match. *)
Lemma url_pattern_precedence_counterexample :
  "&invite=WXYZ ?code=ABCD1234" = "&invite=WXYZ " ++ "?code=ABCD1234" /\
  extract_token_from_text "&invite=WXYZ ?code=ABCD1234" = Some "WXYZ".
Proof. split; [reflexivity | vm_compute; reflexivity]. Qed.

(** ** C10: the discovery key [str(ctf.get("id"))] *)

Lemma Z_to_dec_nonempty z : Z_to_dec z <> EmptyString.
Proof.
  unfold Z_to_dec, Z.to_int. destruct z as [|p|p]; [discriminate| |discriminate].
  pose proof (DecimalPos.Unsigned.to_uint_nonnil p) as H.
  destruct (Pos.to_uint p); simpl; try discriminate; contradiction.
Qed.

Lemma py_repr_nonempty v : py_repr v <> EmptyString.
Proof.
  destruct v as [| [] | z | c t | s | l | l]; simpl; try discriminate.
  apply Z_to_dec_nonempty.
Qed.

Lemma py_str_opt_empty v :
  py_str_opt v = EmptyString <-> v = Some (JStr EmptyString).
Proof.
  split.
  - destruct v as [v|]; [|discriminate]. simpl.
    destruct v; intros H; try (simpl in H; subst; reflexivity);
      exfalso; eapply py_repr_nonempty; exact H.
  - intros ->; reflexivity.
Qed.

(** C10 (amended): the discovery key is [str(id)], empty only for the
    empty-string id, so the [not cid] guard skips exactly those summaries;
    a summary whose id is absent or [null] gets the key ["None"]: it is
    processed and, when eligible, cached under ["None"], and once ["None"]
    is tracked every further id-less summary is skipped, so distinct
    id-less events collide on one record. *)
Theorem discovery_key_collision :
  (forall ctf : dict,
     py_str_opt (dict_get ctf "id") = EmptyString <-> dict_get ctf "id" = Some (JStr EmptyString)) /\
  (forall ctf : dict,
     (dict_get ctf "id" = None \/ dict_get ctf "id" = Some JNull) ->
     py_str_opt (dict_get ctf "id") = "None") /\
  (forall env ctf st d,
     (dict_get ctf "id" = None \/ dict_get ctf "id" = Some JNull) ->
     dict_mem "None" (st_cache st) = false ->
     env_details env (py_str_opt (dict_get ctf "slug")) = FetchOk (Some (JObj d)) ->
     d <> [] -> fst (is_free_or_has_token d) = true -> build_email_body_ok d = true ->
     st_cache (snd (discovery_body env (JObj ctf) st))
     = dict_set (st_cache st) "None" (new_record env ctf d)) /\
  (forall env ctf st,
     (dict_get ctf "id" = None \/ dict_get ctf "id" = Some JNull) ->
     dict_mem "None" (st_cache st) = true ->
     discovery_body env (JObj ctf) st = (Some tt, st)).
Proof.
  assert (Hkey : forall ctf : dict,
     (dict_get ctf "id" = None \/ dict_get ctf "id" = Some JNull) ->
     py_str_opt (dict_get ctf "id") = "None")
    by (intros ctf [H|H]; rewrite H; reflexivity).
  split; [|split; [|split]].
  - intros ctf. apply py_str_opt_empty.
  - exact Hkey.
  - intros env ctf [c evs] d Hid Hnone Hfetch Hd Helig Hbody.
    unfold dict_mem in Hnone. simpl st_cache in Hnone.
    destruct (dict_get c "None") eqn:Hc; [discriminate|].
    unfold discovery_body, bind, as_dict, ret, get_cache. simpl st_cache.
    rewrite (Hkey ctf Hid). simpl. unfold dict_mem. rewrite Hc.
    unfold get_ctf_details. rewrite Hfetch. simpl.
    destruct d as [|kv d']; [contradiction|]. simpl.
    destruct (is_free_or_has_token (kv :: d')) as [matched token]. simpl in Helig. subst matched.
    rewrite Hbody. reflexivity.
  - intros env ctf [c evs] Hid Hnone.
    unfold dict_mem in Hnone. simpl st_cache in Hnone.
    destruct (dict_get c "None") eqn:Hc; [|discriminate].
    unfold discovery_body, bind, as_dict, ret, get_cache. simpl st_cache.
    rewrite (Hkey ctf Hid). simpl. unfold dict_mem. rewrite Hc. reflexivity.
Qed.

Lemma discovery_key_collision_witness :
  (py_str_opt (dict_get [("id", JStr EmptyString)] "id") = EmptyString) /\
  py_str_opt (dict_get [("slug", JStr "a")] "id") = "None" /\
  st_cache (snd (discovery_body (demo_env 0 (JArr []) public_details true)
                   (JObj [("slug", JStr "a")]) (mkSt [] [])))
  = dict_set [] "None" (new_record (demo_env 0 (JArr []) public_details true)
                          [("slug", JStr "a")] [("hasCode", JBool false); ("name", JStr "Demo CTF")]) /\
  discovery_body (demo_env 0 (JArr []) public_details true) (JObj [("slug", JStr "b")])
    (mkSt [("None", JObj [])] []) = (Some tt, mkSt [("None", JObj [])] []).
Proof.
  destruct discovery_key_collision as (H1 & H2 & H3 & H4).
  split; [|split; [|split]].
  - apply H1. reflexivity.
  - apply H2. left; reflexivity.
  - apply H3; try reflexivity. left; reflexivity. discriminate.
  - apply H4; [left|]; reflexivity.
Defined.

(** C10 (counterexample): the [not cid] guard is reachable; a summary whose
    id is the empty string gets the empty key and is skipped although its
    detail is eligible. *)
Lemma discovery_key_collision_counterexample :
  py_str_opt (dict_get [("id", JStr EmptyString); ("slug", JStr "x")] "id") = EmptyString /\
  run (discovery_body (demo_env 0 (JArr []) public_details true)
         (JObj [("id", JStr EmptyString); ("slug", JStr "x")])) []
  = (Some tt, mkSt [] []) /\
  fst (is_free_or_has_token [("hasCode", JBool false); ("name", JStr "Demo CTF")]) = true.
Proof. split; [|split]; reflexivity. Qed.

(** ** C6: [load_cache] never raises *)

(** C6: [load_cache] returns a value for every state of the cache file: the
    empty cache when the file is missing or unreadable, and the empty cache
    for every content on which [json.load] fails. *)
Theorem load_cache_total :
  load_cache FileMissing = JObj [] /\
  load_cache FileUnreadable = JObj [] /\
  (forall s, json_loads s = None -> load_cache (FileText s) = JObj []).
Proof.
  split; [|split]; [reflexivity | reflexivity |].
  intros s H. simpl. rewrite H. reflexivity.
Qed.

Lemma load_cache_total_witness :
  load_cache (FileText "{'slug': 1}") = JObj [] /\ load_cache (FileText "[1, 2") = JObj [].
Proof.
  split; apply (proj2 (proj2 load_cache_total)); vm_compute; reflexivity.
Defined.

(** ** C9: [format_datetime] *)




(** The wall-clock fields of an offset timestamp are printed as they are,
    under the [UTC] label: 10:00 at +05:00 is 05:00 UTC. *)
Example format_datetime_offset_kept :
  format_datetime date_parser_parse (Some "2024-03-01T10:00:00+05:00") = "2024-03-01 10:00 UTC" /\
  utc_micros (mkdt 2024 3 1 10 0 0 0 (Some 18000%Z))
  = utc_micros (mkdt 2024 3 1 5 0 0 0 (Some 0%Z)).
Proof. split; reflexivity. Qed.

(** A date without a time is a naive midnight. *)
Example format_datetime_date_only :
  format_datetime date_parser_parse (Some "2024-03-01") = "2024-03-01 00:00 UTC".
Proof. reflexivity. Qed.

(** ** The reminder pass, one record at a time *)

Lemma reminder_body_eq env cid infod c evs s dt start slug d :
  dict_get c cid = Some (JObj infod) ->
  dict_get infod "starts_at" = Some (JStr s) -> env_date_parse env s = Some dt ->
  utc_micros dt = Some start ->
  dict_get infod "slug" = Some slug ->
  env_details env (py_str slug) = FetchOk (Some (JObj d)) -> d <> [] ->
  reminder_body env cid (JObj infod) (mkSt c evs) =
  if due_reminder env infod start then
    (Some tt, mkSt (reminded c cid infod)
                   (evs ++ [ESend (MsgReminder (py_str slug) (dict_get d "name"))
                                  (env_smtp env (MsgReminder (py_str slug) (dict_get d "name")));
                            ESave (reminded c cid infod)]))
  else (Some tt, mkSt c evs).
Proof.
  intros Hc Hs Hp Hu Hslug Hd Hne.
  cbv [reminder_body bind as_dict lift_opt ret get_cache put_cache emit save_cache
       send_email get_ctf_details].
  rewrite Hs, Hp, Hu. unfold due_reminder.
  destruct (negb _ && _ && _); [|reflexivity].
  rewrite Hslug, Hd. destruct d as [|kv d]; [contradiction|]. simpl.
  rewrite Hc. simpl. rewrite <- app_assoc. reflexivity.
Qed.

(** A record whose detail fetch returns nothing (404) or a falsy body sends
    nothing and changes nothing. *)
Lemma reminder_body_no_detail env cid infod st s dt start slug v :
  dict_get infod "starts_at" = Some (JStr s) -> env_date_parse env s = Some dt ->
  utc_micros dt = Some start ->
  dict_get infod "slug" = Some slug ->
  env_details env (py_str slug) = FetchOk v -> truthy_opt v = false ->
  reminder_body env cid (JObj infod) st = (Some tt, st).
Proof.
  intros Hs Hp Hu Hslug Hd Hv.
  cbv [reminder_body bind as_dict lift_opt ret get_cache put_cache emit save_cache
       send_email get_ctf_details].
  rewrite Hs, Hp, Hu.
  destruct (negb _ && _ && _); [|reflexivity].
  rewrite Hslug, Hd. destruct v as [dv|]; [|reflexivity].
  simpl in Hv. rewrite Hv. reflexivity.
Qed.

(** A record whose [reminder_sent] is truthy is left alone. *)
Lemma reminder_body_sent env cid infod st :
  truthy_opt (dict_get infod "reminder_sent") = true ->
  snd (reminder_body env cid (JObj infod) st) = st.
Proof.
  intros H.
  cbv [reminder_body bind as_dict lift_opt ret get_cache put_cache emit save_cache
       send_email get_ctf_details].
  destruct (dict_get infod "starts_at") as [[]|]; try reflexivity.
  destruct (env_date_parse _ _); [|reflexivity].
  destruct (utc_micros _); [|reflexivity].
  rewrite H. reflexivity.
Qed.

Lemma dict_get_set_same d k v : dict_get (dict_set d k v) k = Some v.
Proof.
  induction d as [|[k' v'] d IH]; simpl.
  - rewrite String.eqb_refl. reflexivity.
  - destruct (String.eqb k k') eqn:E; simpl.
    + apply String.eqb_eq in E. subst. rewrite String.eqb_refl. reflexivity.
    + rewrite E. exact IH.
Qed.

Lemma sends_app l1 l2 : sends (l1 ++ l2) = (sends l1 ++ sends l2)%list.
Proof. induction l1 as [|[] l1 IH]; simpl; congruence. Qed.

Lemma try_pass_some (m : M unit) st st' :
  m st = (Some tt, st') -> try_pass m st = (Some tt, st').
Proof. intros H. unfold try_pass. rewrite H. reflexivity. Qed.

(** ** C3: when a reminder fires *)

(** C3 (amended): for a tracked record whose [starts_at] parses (by any
    date parser) as an aware timestamp and whose detail fetch returns a
    non-empty dict, one reminder is sent when [reminder_sent] is falsy and
    the time until the start lies in [0, 72h], and none otherwise; once
    sent, the record carries [reminder_sent = true], and on any later run
    the pass leaves that record alone.  When the detail fetch returns
    nothing or a falsy value, no reminder is sent and nothing changes. *)
Theorem reminder_fires_when_due env cid infod c evs s dt start slug :
  dict_get c cid = Some (JObj infod) ->
  dict_get infod "starts_at" = Some (JStr s) -> env_date_parse env s = Some dt ->
  utc_micros dt = Some start ->
  dict_get infod "slug" = Some slug ->
  let st' := snd (try_pass (reminder_body env cid (JObj infod)) (mkSt c evs)) in
  (forall d, env_details env (py_str slug) = FetchOk (Some (JObj d)) -> d <> [] ->
   sends (st_events st') =
     (sends evs ++
      (if due_reminder env infod start
       then [(MsgReminder (py_str slug) (dict_get d "name"),
              env_smtp env (MsgReminder (py_str slug) (dict_get d "name")))]
       else []))%list /\
   (due_reminder env infod start = true ->
      dict_get (st_cache st') cid = Some (JObj (dict_set infod "reminder_sent" (JBool true))) /\
      forall env' st'',
        snd (try_pass (reminder_body env' cid
                         (JObj (dict_set infod "reminder_sent" (JBool true)))) st'') = st'')) /\
  (forall v, env_details env (py_str slug) = FetchOk v -> truthy_opt v = false ->
   st' = mkSt c evs).
Proof.
  intros Hc Hs Hp Hu Hslug st'. subst st'. split.
  - intros d Hd Hne.
    pose proof (reminder_body_eq env cid infod c evs s dt start slug d Hc Hs Hp Hu Hslug Hd Hne)
      as E.
    destruct (due_reminder env infod start) eqn:Hdue.
    + rewrite (try_pass_some _ _ _ E). simpl. split.
      * rewrite sends_app. reflexivity.
      * intros _. split.
        -- unfold reminded. apply dict_get_set_same.
        -- intros env' st''. unfold try_pass.
           pose proof (reminder_body_sent env' cid (dict_set infod "reminder_sent" (JBool true)) st'')
             as Hsent.
           rewrite dict_get_set_same in Hsent. specialize (Hsent eq_refl).
           destruct (reminder_body _ _ _ st'') as [[[]|] st3]; simpl in *; exact Hsent.
    + rewrite (try_pass_some _ _ _ E). simpl. split.
      * rewrite app_nil_r. reflexivity.
      * discriminate.
  - intros v Hd Hv.
    rewrite (try_pass_some _ _ _
               (reminder_body_no_detail env cid infod (mkSt c evs) s dt start slug v
                  Hs Hp Hu Hslug Hd Hv)).
    reflexivity.
Qed.

Lemma reminder_fires_when_due_witness :
  (* starts in 10 hours: one reminder, and a later run does not re-fire it *)
  sends (st_events (snd (try_pass
     (reminder_body (demo_env demo_now (JArr []) public_details true) "42"
        (JObj (demo_record "2024-03-01T10:00:00Z" false)))
     (mkSt [("42", JObj (demo_record "2024-03-01T10:00:00Z" false))] []))))
  = [(MsgReminder "demo-ctf" (Some (JStr "Demo CTF")), true)] /\
  snd (try_pass (reminder_body (demo_env (demo_now + 3600000000)%Z (JArr []) public_details true) "42"
        (JObj (dict_set (demo_record "2024-03-01T10:00:00Z" false) "reminder_sent" (JBool true))))
      (mkSt [] []))
  = mkSt [] [] /\
  (* starts in 100 hours, or started an hour ago: no reminder *)
  sends (st_events (snd (try_pass
     (reminder_body (demo_env demo_now (JArr []) public_details true) "42"
        (JObj (demo_record "2024-03-05T04:00Z" false)))
     (mkSt [("42", JObj (demo_record "2024-03-05T04:00Z" false))] [])))) = [] /\
  sends (st_events (snd (try_pass
     (reminder_body (demo_env demo_now (JArr []) public_details true) "42"
        (JObj (demo_record "2024-02-29T23:00:00+00:00" false)))
     (mkSt [("42", JObj (demo_record "2024-02-29T23:00:00+00:00" false))] [])))) = [] /\
  (* due, but the detail endpoint answers 404: nothing happens *)
  snd (try_pass
     (reminder_body (demo_env demo_now (JArr []) (fun _ => FetchOk None) true) "42"
        (JObj (demo_record "2024-03-01T10:00:00Z" false)))
     (mkSt [("42", JObj (demo_record "2024-03-01T10:00:00Z" false))] []))
  = mkSt [("42", JObj (demo_record "2024-03-01T10:00:00Z" false))] [].
Proof.
  pose proof (reminder_fires_when_due (demo_env demo_now (JArr []) public_details true) "42"
                (demo_record "2024-03-01T10:00:00Z" false)
                [("42", JObj (demo_record "2024-03-01T10:00:00Z" false))] []
                "2024-03-01T10:00:00Z" (mkdt 2024 3 1 10 0 0 0 (Some 0%Z))
                ((1709251200 + 36000) * 1000000)%Z (JStr "demo-ctf")
                eq_refl eq_refl eq_refl eq_refl eq_refl)
    as [HA _].
  destruct (HA [("hasCode", JBool false); ("name", JStr "Demo CTF")] eq_refl ltac:(discriminate))
    as [H1 H2].
  pose proof (reminder_fires_when_due (demo_env demo_now (JArr []) public_details true) "42"
                (demo_record "2024-03-05T04:00Z" false)
                [("42", JObj (demo_record "2024-03-05T04:00Z" false))] []
                "2024-03-05T04:00Z" (mkdt 2024 3 5 4 0 0 0 (Some 0%Z))
                ((1709251200 + 360000) * 1000000)%Z (JStr "demo-ctf")
                eq_refl eq_refl eq_refl eq_refl eq_refl)
    as [HB _].
  destruct (HB [("hasCode", JBool false); ("name", JStr "Demo CTF")] eq_refl ltac:(discriminate))
    as [H3 _].
  pose proof (reminder_fires_when_due (demo_env demo_now (JArr []) public_details true) "42"
                (demo_record "2024-02-29T23:00:00+00:00" false)
                [("42", JObj (demo_record "2024-02-29T23:00:00+00:00" false))] []
                "2024-02-29T23:00:00+00:00" (mkdt 2024 2 29 23 0 0 0 (Some 0%Z))
                ((1709251200 - 3600) * 1000000)%Z (JStr "demo-ctf")
                eq_refl eq_refl eq_refl eq_refl eq_refl)
    as [HC _].
  destruct (HC [("hasCode", JBool false); ("name", JStr "Demo CTF")] eq_refl ltac:(discriminate))
    as [H4 _].
  pose proof (reminder_fires_when_due (demo_env demo_now (JArr []) (fun _ => FetchOk None) true)
                "42" (demo_record "2024-03-01T10:00:00Z" false)
                [("42", JObj (demo_record "2024-03-01T10:00:00Z" false))] []
                "2024-03-01T10:00:00Z" (mkdt 2024 3 1 10 0 0 0 (Some 0%Z))
                ((1709251200 + 36000) * 1000000)%Z (JStr "demo-ctf")
                eq_refl eq_refl eq_refl eq_refl eq_refl)
    as [_ HD].
  split; [|split; [|split; [|split]]].
  - rewrite H1. reflexivity.
  - exact (proj2 (H2 eq_refl) _ _).
  - rewrite H3. reflexivity.
  - rewrite H4. reflexivity.
  - exact (HD None eq_refl eq_refl).
Defined.

(** C3 (counterexample): the record is due (10 hours ahead, not yet
    reminded), but the detail endpoint answers 404, so no reminder is sent. *)
Lemma reminder_fires_when_due_counterexample :
  due_reminder (demo_env demo_now (JArr []) (fun _ => FetchOk None) true)
    (demo_record "2024-03-01T10:00:00Z" false) ((1709251200 + 36000) * 1000000)%Z = true /\
  sends (st_events (snd (run (reminder_pass (demo_env demo_now (JArr []) (fun _ => FetchOk None) true))
                           [("42", JObj (demo_record "2024-03-01T10:00:00Z" false))]))) = [].
Proof. split; vm_compute; reflexivity. Qed.

(** [reminder_sent] read back as the float [0.0] is falsy: the reminder goes out. *)
Example reminder_float_zero_fires :
  sends (st_events (snd (try_pass
     (reminder_body (demo_env demo_now (JArr []) public_details true) "42"
        (JObj (dict_set (demo_record "2024-03-01T10:00Z" false) "reminder_sent" (JNum "0" ".0"))))
     (mkSt [("42", JObj (dict_set (demo_record "2024-03-01T10:00Z" false)
                           "reminder_sent" (JNum "0" ".0")))] []))))
  = [(MsgReminder "demo-ctf" (Some (JStr "Demo CTF")), true)].
Proof. vm_compute. reflexivity. Qed.

(** The discovery body on a fresh, eligible summary. *)
Lemma discovery_body_eq env ctf c evs d :
  String.eqb (py_str_opt (dict_get ctf "id")) EmptyString = false ->
  dict_mem (py_str_opt (dict_get ctf "id")) c = false ->
  env_details env (py_str_opt (dict_get ctf "slug")) = FetchOk (Some (JObj d)) -> d <> [] ->
  fst (is_free_or_has_token d) = true -> build_email_body_ok d = true ->
  discovery_body env (JObj ctf) (mkSt c evs) =
  (Some tt,
   mkSt (dict_set c (py_str_opt (dict_get ctf "id")) (new_record env ctf d))
     (evs ++ [ESend (MsgDiscovery ctf d (snd (is_free_or_has_token d)))
                (env_smtp env (MsgDiscovery ctf d (snd (is_free_or_has_token d))));
              ESave (dict_set c (py_str_opt (dict_get ctf "id")) (new_record env ctf d))])).
Proof.
  intros H1 H2 Hdet Hne Hm Hb.
  cbv [discovery_body bind ret get_cache as_dict st_cache]. cbv beta iota zeta.
  rewrite H1, H2. simpl orb.
  unfold get_ctf_details. rewrite Hdet.
  destruct d as [|p d]; [contradiction|].
  destruct (is_free_or_has_token (p :: d)) as [m t] eqn:Ec. simpl in Hm. subst m.
  cbv [ret json_of_opt truthy_opt truthy negb orb]. cbv beta iota.
  rewrite Ec, Hb.
  cbv [send_email emit put_cache save_cache get_cache bind ret st_cache st_events].
  cbv beta iota zeta. rewrite <- app_assoc. reflexivity.
Qed.

(** ** C1: what happens after a send *)

(** C1 (amended): in the reminder pass, for a due record whose detail fetch
    returns a non-empty dict, the reminder is sent first, then the cache with
    [reminder_sent = true] is saved, whatever [send_email] returned; in the
    discovery pass, for a fresh eligible summary, the notification is sent
    first, then the new record is stored and the cache saved, whatever
    [send_email] returned. *)
Theorem send_then_persist_regardless env :
  (forall cid infod c evs s dt start slug d,
     dict_get c cid = Some (JObj infod) ->
     dict_get infod "starts_at" = Some (JStr s) -> env_date_parse env s = Some dt ->
     utc_micros dt = Some start ->
     dict_get infod "slug" = Some slug ->
     env_details env (py_str slug) = FetchOk (Some (JObj d)) -> d <> [] ->
     due_reminder env infod start = true ->
     let m := MsgReminder (py_str slug) (dict_get d "name") in
     try_pass (reminder_body env cid (JObj infod)) (mkSt c evs) =
     (Some tt, mkSt (reminded c cid infod)
                 (evs ++ [ESend m (env_smtp env m); ESave (reminded c cid infod)]))) /\
  (forall ctf c evs d,
     String.eqb (py_str_opt (dict_get ctf "id")) EmptyString = false ->
     dict_mem (py_str_opt (dict_get ctf "id")) c = false ->
     env_details env (py_str_opt (dict_get ctf "slug")) = FetchOk (Some (JObj d)) -> d <> [] ->
     fst (is_free_or_has_token d) = true -> build_email_body_ok d = true ->
     let m := MsgDiscovery ctf d (snd (is_free_or_has_token d)) in
     let c' := dict_set c (py_str_opt (dict_get ctf "id")) (new_record env ctf d) in
     discovery_body env (JObj ctf) (mkSt c evs) =
     (Some tt, mkSt c' (evs ++ [ESend m (env_smtp env m); ESave c']))).
Proof.
  split.
  - intros cid infod c evs s dt start slug d Hc Hs Hp Hu Hslug Hd Hne Hdue m.
    apply try_pass_some.
    pose proof (reminder_body_eq env cid infod c evs s dt start slug d Hc Hs Hp Hu Hslug Hd Hne)
      as E.
    rewrite Hdue in E. exact E.
  - intros ctf c evs d H1 H2 Hd Hne Hm Hb m c'.
    exact (discovery_body_eq env ctf c evs d H1 H2 Hd Hne Hm Hb).
Qed.

Lemma send_then_persist_regardless_witness :
  (try_pass (reminder_body (demo_env demo_now (JArr []) public_details false) "42"
               (JObj (demo_record "2024-03-01T10:00:00Z" false)))
     (mkSt [("42", JObj (demo_record "2024-03-01T10:00:00Z" false))] [])
   = (Some tt,
      mkSt [("42", JObj (demo_record "2024-03-01T10:00:00Z" true))]
        [ESend (MsgReminder "demo-ctf" (Some (JStr "Demo CTF"))) false;
         ESave [("42", JObj (demo_record "2024-03-01T10:00:00Z" true))]])) /\
  st_events (snd (discovery_body (demo_env demo_now demo_catalog public_details false)
                    (JObj [("id", JInt 7); ("slug", JStr "demo-ctf")]) (mkSt [] [])))
  = [ESend (MsgDiscovery [("id", JInt 7); ("slug", JStr "demo-ctf")]
              [("hasCode", JBool false); ("name", JStr "Demo CTF")] None) false;
     ESave [("7", new_record (demo_env demo_now demo_catalog public_details false)
                    [("id", JInt 7); ("slug", JStr "demo-ctf")]
                    [("hasCode", JBool false); ("name", JStr "Demo CTF")])]].
Proof.
  destruct (send_then_persist_regardless (demo_env demo_now (JArr []) public_details false))
    as [R _].
  destruct (send_then_persist_regardless (demo_env demo_now demo_catalog public_details false))
    as [_ D].
  split.
  - exact (R "42" (demo_record "2024-03-01T10:00:00Z" false)
             [("42", JObj (demo_record "2024-03-01T10:00:00Z" false))] []
             "2024-03-01T10:00:00Z" (mkdt 2024 3 1 10 0 0 0 (Some 0%Z))
             ((1709251200 + 36000) * 1000000)%Z (JStr "demo-ctf")
             [("hasCode", JBool false); ("name", JStr "Demo CTF")]
             eq_refl eq_refl eq_refl eq_refl eq_refl eq_refl ltac:(discriminate) eq_refl).
  - rewrite (D [("id", JInt 7); ("slug", JStr "demo-ctf")] [] []
               [("hasCode", JBool false); ("name", JStr "Demo CTF")]
               eq_refl eq_refl eq_refl ltac:(discriminate) eq_refl eq_refl).
    reflexivity.
Defined.

(** C1 (counterexample): SMTP delivery fails in a whole run. The reminder
    pass still saves the record with [reminder_sent = true], and the
    discovery pass still creates and saves the record of the CTF it just
    failed to announce; neither is retried on the next run. *)
Lemma send_then_persist_regardless_counterexample :
  st_events (snd (run (main_with (demo_env demo_now demo_catalog public_details false)
                         (JObj [("42", JObj (demo_record "2024-03-01T10:00:00Z" false))]))
                    []))
  = [ESend (MsgReminder "demo-ctf" (Some (JStr "Demo CTF"))) false;
     ESave [("42", JObj (demo_record "2024-03-01T10:00:00Z" true))];
     ESend (MsgDiscovery [("id", JInt 7); ("slug", JStr "demo-ctf")]
              [("hasCode", JBool false); ("name", JStr "Demo CTF")] None) false;
     ESave [("42", JObj (demo_record "2024-03-01T10:00:00Z" true));
            ("7", new_record (demo_env demo_now demo_catalog public_details false)
                    [("id", JInt 7); ("slug", JStr "demo-ctf")]
                    [("hasCode", JBool false); ("name", JStr "Demo CTF")])]].
Proof. vm_compute. reflexivity. Qed.

(** ** The discovery loop, one summary at a time *)

Lemma discovery_body_outcome env x c evs :
  discovery_body env x (mkSt c evs) = interp env (body_outcome env x c) c evs.
Proof.
  destruct x as [| | | | | |ctf]; try reflexivity.
  cbv [discovery_body body_outcome bind ret raise get_cache as_dict st_cache get_ctf_details].
  cbv beta iota zeta.
  destruct (String.eqb _ _ || dict_mem _ _); [reflexivity|].
  destruct (env_details env _) as [|detail]; [reflexivity|].
  destruct (negb (truthy_opt detail)); [reflexivity|].
  destruct (json_of_opt detail) as [| | | | | |d]; try reflexivity.
  destruct (is_free_or_has_token d) as [[] token]; [|reflexivity].
  destruct (build_email_body_ok d); [|reflexivity].
  cbv [send_email emit put_cache save_cache get_cache bind ret st_cache st_events interp].
  cbv beta iota zeta. rewrite <- app_assoc. reflexivity.
Qed.

Lemma dict_mem_set k k' v c :
  dict_mem k (dict_set c k' v) = String.eqb k k' || dict_mem k c.
Proof.
  unfold dict_mem. induction c as [|[k0 v0] c IH]; simpl.
  - destruct (String.eqb k k'); reflexivity.
  - destruct (String.eqb k' k0) eqn:E1; simpl.
    + apply String.eqb_eq in E1. subst k0.
      destruct (String.eqb k k'); reflexivity.
    + destruct (String.eqb k k0) eqn:E2.
      * simpl. rewrite Bool.orb_true_r. reflexivity.
      * exact IH.
Qed.

Lemma body_outcome_add env x c k m rcd :
  body_outcome env x c = OAdd k m rcd ->
  exists ctf, x = JObj ctf /\ k = py_str_opt (dict_get ctf "id") /\
    String.eqb k EmptyString = false /\ dict_mem k c = false /\ classified_eligible env ctf.
Proof.
  destruct x as [| | | | | |ctf]; simpl; try discriminate.
  destruct (String.eqb _ _ || dict_mem _ _) eqn:Hk; [discriminate|].
  apply Bool.orb_false_iff in Hk as [Hk1 Hk2].
  destruct (env_details env _) as [|detail] eqn:Hd; [discriminate|].
  destruct (negb (truthy_opt detail)) eqn:Ht; [discriminate|].
  destruct detail as [dv|]; [|discriminate].
  destruct dv as [| | | | | |d]; simpl; try discriminate.
  destruct (is_free_or_has_token d) as [[] token] eqn:Hc; [|discriminate].
  destruct (build_email_body_ok d); [|discriminate].
  intros E. injection E as <- _ _.
  exists ctf. repeat split; auto. exists d. repeat split; auto.
  - intros ->. discriminate.
  - rewrite Hc. reflexivity.
Qed.

(** A summary whose key is already tracked is skipped. *)
Lemma body_outcome_tracked env ctf c :
  dict_mem (py_str_opt (dict_get ctf "id")) c = true -> body_outcome env (JObj ctf) c = OSkip.
Proof. intros H. simpl. rewrite H, Bool.orb_true_r. reflexivity. Qed.

(** A skip stays a skip against a cache with more keys. *)
Lemma body_outcome_skip_mono env x c c' :
  (forall k, dict_mem k c = true -> dict_mem k c' = true) ->
  body_outcome env x c = OSkip -> body_outcome env x c' = OSkip.
Proof.
  intros Hsub. destruct x as [| | | | | |ctf]; try (simpl; discriminate).
  destruct (dict_mem (py_str_opt (dict_get ctf "id")) c') eqn:Hm'.
  { intros _. apply body_outcome_tracked. exact Hm'. }
  destruct (dict_mem (py_str_opt (dict_get ctf "id")) c) eqn:Hm.
  { apply Hsub in Hm. congruence. }
  simpl. rewrite Hm, Hm'. auto.
Qed.

(** The discovery loop only adds keys. *)
Lemma discovery_loop_mono env l : forall c evs r st1,
  discovery_loop env l (mkSt c evs) = (r, st1) ->
  forall k, dict_mem k c = true -> dict_mem k (st_cache st1) = true.
Proof.
  induction l as [|x l IH]; intros c evs r st1 H k Hk; simpl in H.
  - unfold ret in H. injection H as _ <-. exact Hk.
  - unfold bind in H. rewrite discovery_body_outcome in H.
    destruct (body_outcome env x c) as [| |k' m rcd]; simpl in H.
    + injection H as _ <-. exact Hk.
    + exact (IH _ _ _ _ H k Hk).
    + apply (IH _ _ _ _ H k). rewrite dict_mem_set, Hk. apply Bool.orb_true_r.
Qed.

(** Keys of the cache after the discovery loop: the initial ones, and keys
    of summaries of the list that passed classification. *)
Lemma discovery_loop_keys env l : forall c evs r st1,
  discovery_loop env l (mkSt c evs) = (r, st1) ->
  forall k, dict_mem k (st_cache st1) = true ->
  dict_mem k c = true \/
  exists ctf, In (JObj ctf) l /\ k = py_str_opt (dict_get ctf "id") /\ classified_eligible env ctf.
Proof.
  induction l as [|x l IH]; intros c evs r st1 H k Hk; simpl in H.
  - unfold ret in H. injection H as _ <-. left. exact Hk.
  - unfold bind in H. rewrite discovery_body_outcome in H.
    destruct (body_outcome env x c) as [| |k' m rcd] eqn:Ho; simpl in H.
    + injection H as _ <-. left. exact Hk.
    + destruct (IH _ _ _ _ H k Hk) as [Hc | (ctf & Hin & Hkey & He)]; [left; exact Hc|].
      right. exists ctf. split; [right; exact Hin|]. auto.
    + destruct (IH _ _ _ _ H k Hk) as [Hc | (ctf & Hin & Hkey & He)].
      * rewrite dict_mem_set in Hc. apply Bool.orb_true_iff in Hc as [Hc|Hc]; [|left; exact Hc].
        apply String.eqb_eq in Hc. subst k'.
        destruct (body_outcome_add _ _ _ _ _ _ Ho) as (ctf & -> & Hkey & _ & _ & He).
        right. exists ctf. split; [left; reflexivity|]. auto.
      * right. exists ctf. split; [right; exact Hin|]. auto.
Qed.

(** Replaying the discovery loop against the cache it produced. *)
Lemma discovery_loop_replay env l : forall c evs r st1,
  discovery_loop env l (mkSt c evs) = (r, st1) ->
  forall evs', discovery_loop env l (mkSt (st_cache st1) evs') = (r, mkSt (st_cache st1) evs').
Proof.
  induction l as [|x l IH]; intros c evs r st1 H evs'; simpl in H |- *.
  - unfold ret in H |- *. injection H as <- <-. reflexivity.
  - pose proof (discovery_loop_mono env (x :: l) c evs r st1 H) as Hmono.
    unfold bind in H |- *.
    rewrite discovery_body_outcome in H |- *.
    destruct (body_outcome env x c) as [| |k m rcd] eqn:Ho; simpl in H.
    + injection H as <- <-. simpl. rewrite Ho. reflexivity.
    + rewrite (body_outcome_skip_mono env x c (st_cache st1) Hmono Ho). simpl.
      exact (IH _ _ _ _ H evs').
    + destruct (body_outcome_add _ _ _ _ _ _ Ho) as (ctf & -> & Hkey & _ & _ & _).
      rewrite body_outcome_tracked.
      * simpl. exact (IH _ _ _ _ H evs').
      * rewrite <- Hkey. apply (discovery_loop_mono env l _ _ _ _ H).
        rewrite dict_mem_set, String.eqb_refl. reflexivity.
Qed.

(** ** The reminder pass keeps the set of tracked keys *)

Lemma dict_mem_set_tracked k k' v c :
  dict_mem k' c = true -> dict_mem k (dict_set c k' v) = dict_mem k c.
Proof.
  intros H. rewrite dict_mem_set. destruct (String.eqb k k') eqn:E; [|reflexivity].
  apply String.eqb_eq in E. subst. rewrite H. reflexivity.
Qed.

Lemma reminder_body_keys env cid info c evs k :
  dict_mem k (st_cache (snd (reminder_body env cid info (mkSt c evs)))) = dict_mem k c.
Proof.
  destruct info as [| | | | | |infod]; try reflexivity.
  cbv [reminder_body bind ret raise lift_opt as_dict]. cbv beta iota zeta.
  destruct (dict_get infod "starts_at") as [[| | | |s| |]|]; try reflexivity.
  destruct (env_date_parse _ s) as [dt|]; try reflexivity.
  destruct (utc_micros dt) as [start|]; try reflexivity.
  destruct (_ && _ && _); try reflexivity.
  destruct (dict_get infod "slug") as [slug|]; try reflexivity.
  unfold get_ctf_details. destruct (env_details env (py_str slug)) as [|[dv|]]; try reflexivity.
  cbv [ret]. cbv beta iota zeta.
  destruct (truthy dv); try reflexivity.
  destruct dv as [| | | | | |d]; try reflexivity.
  cbv [send_email emit get_cache ret bind st_cache st_events]. cbv beta iota zeta.
  destruct (dict_get c cid) as [entry|] eqn:Hc; try reflexivity.
  destruct entry as [| | | | | |e]; try reflexivity.
  cbv [put_cache save_cache get_cache emit bind st_cache st_events]. cbv beta iota zeta.
  apply dict_mem_set_tracked. unfold dict_mem. rewrite Hc. reflexivity.
Qed.

Lemma reminder_loop_keys env items : forall c evs k,
  dict_mem k (st_cache (snd (reminder_loop env items (mkSt c evs)))) = dict_mem k c.
Proof.
  induction items as [|[cid info] items IH]; intros c evs k; [reflexivity|].
  simpl. unfold bind, try_pass.
  pose proof (reminder_body_keys env cid info c evs k) as Hk.
  destruct (reminder_body env cid info (mkSt c evs)) as [r [c' evs']].
  simpl in Hk. rewrite <- Hk.
  destruct r; apply IH.
Qed.

(** [for ctf in ctfs] neither reads nor changes the state. *)
Lemma iter_catalog_state v st : iter_catalog v st = (fst (iter_catalog v (mkSt [] [])), st).
Proof.
  destruct v as [| | | | s | l | o]; try reflexivity.
  - destruct s; reflexivity.
  - destruct o; reflexivity.
Qed.

Lemma iter_catalog_list v l : fst (iter_catalog v (mkSt [] [])) = Some l -> l = [] \/ v = JArr l.
Proof.
  destruct v as [| | | | s | l' | o]; simpl; try discriminate.
  - destruct s; simpl; [intros E; injection E as <-; left; reflexivity|discriminate].
  - intros E. injection E as <-. right. reflexivity.
  - destruct o; simpl; [intros E; injection E as <-; left; reflexivity|discriminate].
Qed.

(** ** C4: which keys the cache can hold *)

(** C4: after a run of [main] from a loaded cache, every tracked key was
    tracked in the loaded cache or is the key of a catalog summary that
    passed classification in this run; so a key that was not tracked and
    whose summaries all fail classification (or whose detail fetch fails)
    is still untracked after the run. *)
Theorem tracked_only_if_eligible env loaded st r st' :
  main_with env (JObj loaded) st = (r, st') ->
  (forall k, dict_mem k (st_cache st') = true ->
     dict_mem k loaded = true \/
     exists l ctf, env_list env = Some (JArr l) /\ In (JObj ctf) l /\
                   k = py_str_opt (dict_get ctf "id") /\ classified_eligible env ctf) /\
  (forall k, dict_mem k loaded = false ->
     (forall l ctf, env_list env = Some (JArr l) -> In (JObj ctf) l ->
                    k = py_str_opt (dict_get ctf "id") -> ~ classified_eligible env ctf) ->
     dict_mem k (st_cache st') = false).
Proof.
  intros H.
  assert (Hpos : forall k, dict_mem k (st_cache st') = true ->
     dict_mem k loaded = true \/
     exists l ctf, env_list env = Some (JArr l) /\ In (JObj ctf) l /\
                   k = py_str_opt (dict_get ctf "id") /\ classified_eligible env ctf).
  { intros k Hk.
    unfold main_with, bind, as_dict, ret, put_cache in H.
    unfold reminder_pass, bind, get_cache in H. simpl st_cache in H.
    pose proof (reminder_loop_keys env loaded loaded (st_events st) k) as Hr.
    destruct (reminder_loop env loaded (mkSt loaded (st_events st))) as [r1 [c1 e1]].
    simpl in Hr. rewrite <- Hr.
    destruct r1 as [u|]; [|injection H as _ <-; left; exact Hk].
    unfold discovery_pass in H. destruct (env_list env) as [v|] eqn:Hl.
    - unfold bind in H. rewrite iter_catalog_state in H.
      destruct (fst (iter_catalog v (mkSt [] []))) as [l|] eqn:Hi;
        [|injection H as _ <-; left; exact Hk].
      destruct (discovery_loop_keys env l c1 e1 r st' H k Hk) as [Hc | (ctf & Hin & Hkey & He)];
        [left; exact Hc|].
      destruct (iter_catalog_list v l Hi) as [-> | ->]; [destruct Hin|].
      right. exists l, ctf. auto.
    - unfold ret in H. injection H as _ <-. left. exact Hk. }
  split; [exact Hpos|].
  intros k Hnot Hinel. destruct (dict_mem k (st_cache st')) eqn:Hk; [|reflexivity].
  destruct (Hpos k Hk) as [Hc | (l & ctf & Hl & Hin & Hkey & He)]; [congruence|].
  exfalso. exact (Hinel l ctf Hl Hin Hkey He).
Qed.

Lemma tracked_only_if_eligible_witness :
  dict_mem "8" (st_cache (snd (run (main_with (demo_env demo_now mixed_catalog mixed_details true)
                                               (JObj [])) []))) = false.
Proof.
  destruct (tracked_only_if_eligible (demo_env demo_now mixed_catalog mixed_details true) []
              (mkSt [] [])
              (fst (run (main_with (demo_env demo_now mixed_catalog mixed_details true) (JObj [])) []))
              (snd (run (main_with (demo_env demo_now mixed_catalog mixed_details true) (JObj [])) []))
              eq_refl) as [_ Hneg].
  apply Hneg; [reflexivity|].
  intros l ctf Hl Hin Hkey (d & Hd & _ & Hm).
  injection Hl as <-. destruct Hin as [E | [E | []]]; injection E as <-.
  - discriminate Hkey.
  - injection Hd as <-. discriminate Hm.
Defined.

(** ** C7: replaying discovery *)

(** C7: a discovery pass started from the cache left by an earlier
    discovery pass, in the same world (catalog, details, clock), ends with
    the same result, sends nothing, saves nothing and leaves that cache as
    it is. *)
Theorem discovery_pass_idempotent env c evs r st1 :
  discovery_pass env (mkSt c evs) = (r, st1) ->
  forall evs', discovery_pass env (mkSt (st_cache st1) evs') = (r, mkSt (st_cache st1) evs').
Proof.
  intros H evs'. unfold discovery_pass in H |- *.
  destruct (env_list env) as [v|].
  - unfold bind in H |- *. rewrite iter_catalog_state in H |- *.
    destruct (fst (iter_catalog v (mkSt [] []))) as [l|].
    + exact (discovery_loop_replay env l c evs r st1 H evs').
    + injection H as <- <-. reflexivity.
  - unfold ret in H |- *. injection H as <- <-. reflexivity.
Qed.

Lemma discovery_pass_idempotent_witness :
  sends (st_events (snd (run (discovery_pass (demo_env demo_now mixed_catalog mixed_details true))
                           []))) =
    [(MsgDiscovery [("id", JInt 7); ("slug", JStr "demo-ctf")]
        [("hasCode", JBool false); ("name", JStr "Demo CTF")] None, true)] /\
  discovery_pass (demo_env demo_now mixed_catalog mixed_details true)
    (mkSt (st_cache (snd (run (discovery_pass (demo_env demo_now mixed_catalog mixed_details true))
                            []))) [])
  = (Some tt, mkSt (st_cache (snd (run (discovery_pass (demo_env demo_now mixed_catalog mixed_details true))
                                      []))) []).
Proof.
  split; [vm_compute; reflexivity|].
  exact (discovery_pass_idempotent (demo_env demo_now mixed_catalog mixed_details true) [] []
           (Some tt)
           (snd (run (discovery_pass (demo_env demo_now mixed_catalog mixed_details true)) []))
           eq_refl []).
Defined.

(** ** C5: reading back the cache file *)

Lemma scan_str_escape_char c rest : scan_str (escape_char c ++ rest) = scons c (scan_str rest).
Proof. destruct c as [[] [] [] [] [] [] [] []]; reflexivity. Qed.

Lemma scan_str_dump s rest : scan_str (escape_body s ++ String dquote rest) = Some (s, rest).
Proof.
  induction s as [|c s IH]; [reflexivity|].
  simpl. rewrite append_assoc_s, scan_str_escape_char, IH. reflexivity.
Qed.

Lemma dump_str_app k T : dump_str k ++ T = String dquote (escape_body k ++ String dquote T).
Proof. unfold dump_str. simpl. rewrite append_assoc_s. reflexivity. Qed.

Lemma skip_ws_nl_indent n s : skip_ws (nl_indent n ++ s) = skip_ws s.
Proof. unfold nl_indent. simpl. induction n as [|n IH]; simpl; [reflexivity|exact IH]. Qed.

Lemma starts_with_app p T : starts_with p (p ++ T) = Some T.
Proof.
  unfold starts_with.
  assert (Hp : String.prefix p (p ++ T) = true).
  { induction p as [|a p IH]; simpl; [destruct T; reflexivity|].
    rewrite IH. destruct (Ascii.ascii_dec a a); [reflexivity|contradiction]. }
  rewrite Hp, length_append_s. f_equal.
  replace (String.length p + String.length T - String.length p) with (String.length T) by lia.
  apply substring_suffix.
Qed.

Lemma skip_ws_dump lvl v T : plain_json v = true -> skip_ws (dump lvl v ++ T) = dump lvl v ++ T.
Proof.
  destruct v as [|[]|z|c t|s|[|x l]|[|x l]]; simpl; intros H; try discriminate; reflexivity.
Qed.

Lemma skip_ws_comma s : skip_ws (String ","%char s) = String ","%char s.
Proof. reflexivity. Qed.

Lemma length_nl_indent n : 1 <= String.length (nl_indent n).
Proof. unfold nl_indent. simpl. lia. Qed.

Lemma dump_items_length_ge {A} (f : A -> string) lvl l : length l <= String.length (dump_items f lvl l).
Proof.
  induction l as [|x t IH]; [simpl; lia|].
  cbn [dump_items]. rewrite !length_append_s. pose proof (length_nl_indent (S lvl)).
  destruct t as [|y t]; cbn [length String.length String.append] in *; lia.
Qed.

Lemma dump_items_length_in {A} (f : A -> string) lvl l x :
  In x l -> String.length (f x) < String.length (dump_items f lvl l).
Proof.
  induction l as [|y t IH]; [intros []|]. intros Hin.
  cbn [dump_items]. rewrite !length_append_s. pose proof (length_nl_indent (S lvl)).
  destruct Hin as [<-|Hin]; [lia|].
  specialize (IH Hin). destruct t as [|z t]; [destruct Hin|].
  cbn [String.length String.append]. lia.
Qed.

Lemma parse_elems_dump (pv : parser) lvl l : l <> [] -> forall acc m rest,
  length l <= m ->
  (forall x, In x l -> plain_json x = true /\ forall T, pv (dump (S lvl) x ++ T) = Some (x, T)) ->
  parse_elems pv m (skip_ws (dump_items (dump (S lvl)) lvl l ++ nl_indent lvl ++ String "]"%char rest)) acc
  = Some (JArr (acc ++ l), rest).
Proof.
  induction l as [|x t IH]; intros Hne acc m rest Hm Hx; [contradiction|].
  destruct m as [|m]; [simpl in Hm; lia|].
  destruct (Hx x (or_introl eq_refl)) as [Hpx Hpv].
  cbn [dump_items]. rewrite !append_assoc_s, skip_ws_nl_indent, skip_ws_dump by exact Hpx.
  cbn [parse_elems]. rewrite Hpv.
  destruct t as [|y t].
  - cbn [String.append]. rewrite skip_ws_nl_indent. reflexivity.
  - cbn [String.append]. rewrite skip_ws_comma. cbv beta iota.
    rewrite IH.
    + rewrite <- app_assoc. reflexivity.
    + discriminate.
    + simpl in Hm |- *. lia.
    + intros z Hz. apply Hx. right. exact Hz.
Qed.

Lemma expect_same c s : expect c (String c s) = Some s.
Proof. unfold expect. rewrite Ascii.eqb_refl. reflexivity. Qed.

Lemma skip_ws_dquote s : skip_ws (String dquote s) = String dquote s.
Proof. reflexivity. Qed.

Lemma skip_ws_colon s : skip_ws (String ":"%char s) = String ":"%char s.
Proof. reflexivity. Qed.

Lemma skip_ws_space s : skip_ws (String " "%char s) = skip_ws s.
Proof. reflexivity. Qed.

Lemma parse_members_dump (pv : parser) lvl l : l <> [] -> forall acc m rest,
  length l <= m ->
  (forall kv, In kv l ->
     plain_json (snd kv) = true /\ forall T, pv (dump (S lvl) (snd kv) ++ T) = Some (snd kv, T)) ->
  parse_members pv m
    (skip_ws (dump_items (fun kv => dump_str (fst kv) ++ ": " ++ dump (S lvl) (snd kv)) lvl l
              ++ nl_indent lvl ++ String "}"%char rest)) acc
  = Some (JObj (dict_from_pairs (acc ++ l)), rest).
Proof.
  induction l as [|[k v] t IH]; intros Hne acc m rest Hm Hx; [contradiction|].
  destruct m as [|m]; [simpl in Hm; lia|].
  destruct (Hx (k, v) (or_introl eq_refl)) as [Hpx Hpv]. cbn [fst snd] in Hpx, Hpv.
  cbn [dump_items fst snd]. rewrite !append_assoc_s, skip_ws_nl_indent, dump_str_app, skip_ws_dquote.
  cbn [parse_members]. rewrite expect_same, scan_str_dump. cbv beta iota.
  cbn [String.append]. rewrite skip_ws_colon, expect_same. cbv beta iota.
  rewrite skip_ws_space, skip_ws_dump by exact Hpx. rewrite Hpv. cbv beta iota.
  destruct t as [|kv' t].
  - cbn [String.append]. rewrite skip_ws_nl_indent. reflexivity.
  - cbn [String.append]. rewrite skip_ws_comma. cbv beta iota.
    rewrite IH.
    + rewrite <- app_assoc. reflexivity.
    + discriminate.
    + simpl in Hm |- *. lia.
    + intros z Hz. apply Hx. right. exact Hz.
Qed.

Lemma dict_set_fresh d k v : dict_mem k d = false -> dict_set d k v = (d ++ [(k, v)])%list.
Proof.
  unfold dict_mem. induction d as [|[k' v'] d IH]; simpl; [reflexivity|].
  destruct (String.eqb k k'); [discriminate|]. intros H. rewrite (IH H). reflexivity.
Qed.

Lemma dict_from_pairs_fold l : forall d,
  distinct_keys (map fst l) = true ->
  (forall k, In k (map fst l) -> dict_mem k d = false) ->
  fold_left (fun d kv => dict_set d (fst kv) (snd kv)) l d = (d ++ l)%list.
Proof.
  induction l as [|[k v] t IH]; intros d Hd Hf; simpl; [rewrite app_nil_r; reflexivity|].
  simpl in Hd. apply andb_prop in Hd as [Hk Hd].
  rewrite dict_set_fresh by (apply Hf; left; reflexivity).
  rewrite IH; [rewrite <- app_assoc; reflexivity|exact Hd|].
  intros k' Hin. rewrite <- dict_set_fresh by (apply Hf; left; reflexivity).
  rewrite dict_mem_set, (Hf k' (or_intror Hin)), Bool.orb_false_r.
  apply Bool.negb_true_iff in Hk.
  destruct (String.eqb k' k) eqn:E; [|reflexivity].
  apply String.eqb_eq in E. subst k'.
  exfalso. apply Bool.not_true_iff_false in Hk. apply Hk.
  apply existsb_exists. exists k. split; [exact Hin|apply String.eqb_refl].
Qed.

Lemma dict_from_pairs_distinct l : distinct_keys (map fst l) = true -> dict_from_pairs l = l.
Proof. intros H. unfold dict_from_pairs. rewrite dict_from_pairs_fold; auto. Qed.

(** A plain value is printed starting with one of [n t f [ {] or the quote. *)
Lemma dump_head lvl v T : plain_json v = true ->
  In (head_code (dump lvl v ++ T)) [110; 116; 102; 34; 91; 123].
Proof.
  destruct v as [|[]|z|c t|s|[|x l]|[|x l]]; simpl; intros H; try discriminate;
    try (rewrite dump_str_app); simpl; tauto.
Qed.

Lemma parse_value_dquote n r :
  parse_value (S n) (String dquote r) =
  match scan_str r with Some (t, r') => Some (JStr t, r') | None => None end.
Proof. reflexivity. Qed.

Lemma parse_value_bracket n r :
  head_code (skip_ws r) <> 93 ->
  parse_value (S n) (String "["%char r) = parse_elems (parse_value n) n (skip_ws r) [].
Proof.
  intros H. simpl. remember (skip_ws r) as X. clear HeqX.
  destruct X as [|c r']; [reflexivity|].
  destruct c as [[] [] [] [] [] [] [] []]; try reflexivity; exfalso; apply H; reflexivity.
Qed.

Lemma parse_value_brace n r :
  head_code (skip_ws r) <> 125 ->
  parse_value (S n) (String "{"%char r) = parse_members (parse_value n) n (skip_ws r) [].
Proof.
  intros H. simpl. remember (skip_ws r) as X. clear HeqX.
  destruct X as [|c r']; [reflexivity|].
  destruct c as [[] [] [] [] [] [] [] []]; try reflexivity; exfalso; apply H; reflexivity.
Qed.

Ltac starts_with_lit w T :=
  let E := fresh "E" in
  pose proof (starts_with_app w T) as E; simpl in E; rewrite E; reflexivity.

Lemma parse_value_dump n : forall v lvl T,
  plain_json v = true -> String.length (dump lvl v) <= n ->
  parse_value n (dump lvl v ++ T) = Some (v, T).
Proof.
  induction n as [|n IH]; intros v lvl T Hp Hlen.
  { exfalso. destruct v as [|[]|z|c t|s|[|x l]|[|x l]]; try discriminate;
      cbn [dump dump_str String.append String.length] in Hlen; lia. }
  destruct v as [|[]|z|c t|s|[|x l]|[|x l]]; try discriminate.
  - simpl. starts_with_lit "null" T.
  - simpl. starts_with_lit "true" T.
  - simpl. starts_with_lit "false" T.
  - cbn [dump]. rewrite dump_str_app, parse_value_dquote, scan_str_dump. reflexivity.
  - reflexivity.
  - (* a non-empty list *)
    cbn [plain_json] in Hp.
    assert (Hx : forall y, In y (x :: l) -> plain_json y = true).
    { intros y Hy. exact (proj1 (forallb_forall _ _) Hp y Hy). }
    set (items := dump_items (dump (S lvl)) lvl (x :: l)).
    assert (Hd : dump lvl (JArr (x :: l)) = "[" ++ items ++ nl_indent lvl ++ "]") by reflexivity.
    rewrite Hd in Hlen |- *.
    rewrite !append_assoc_s. cbn [String.append].
    rewrite parse_value_bracket.
    + unfold items.
      rewrite (parse_elems_dump (parse_value n) lvl (x :: l)); [reflexivity|discriminate| |].
      * rewrite !length_append_s in Hlen. cbn [String.length] in Hlen.
        pose proof (dump_items_length_ge (dump (S lvl)) lvl (x :: l)). fold items in H. lia.
      * intros y Hy. split; [exact (Hx y Hy)|]. intros T'. apply IH; [exact (Hx y Hy)|].
        pose proof (dump_items_length_in (dump (S lvl)) lvl (x :: l) y Hy). fold items in H.
        rewrite !length_append_s in Hlen. cbn [String.length] in Hlen. lia.
    + unfold items. cbn [dump_items]. rewrite !append_assoc_s, skip_ws_nl_indent,
        skip_ws_dump by (apply Hx; left; reflexivity).
      intros E. pose proof (dump_head (S lvl) x
        ((match l with [] => EmptyString | _ => "," ++ dump_items (dump (S lvl)) lvl l end)
         ++ nl_indent lvl ++ String "]"%char T)) as Hh.
      specialize (Hh (Hx x (or_introl eq_refl))). rewrite E in Hh. simpl in Hh. lia.
  - reflexivity.
  - (* a non-empty dict *)
    cbn [plain_json] in Hp. apply andb_prop in Hp as [Hdk Hp].
    assert (Hx : forall kv, In kv (x :: l) -> plain_json (snd kv) = true).
    { intros kv Hkv. exact (proj1 (forallb_forall _ _) Hp kv Hkv). }
    set (f := fun kv : string * json => dump_str (fst kv) ++ ": " ++ dump (S lvl) (snd kv)).
    set (items := dump_items f lvl (x :: l)).
    assert (Hd : dump lvl (JObj (x :: l)) = "{" ++ items ++ nl_indent lvl ++ "}") by reflexivity.
    rewrite Hd in Hlen |- *.
    rewrite !append_assoc_s. cbn [String.append].
    rewrite parse_value_brace.
    + unfold items, f.
      rewrite (parse_members_dump (parse_value n) lvl (x :: l)); [|discriminate| |].
      * simpl app. rewrite dict_from_pairs_distinct by exact Hdk. reflexivity.
      * rewrite !length_append_s in Hlen. cbn [String.length] in Hlen.
        pose proof (dump_items_length_ge f lvl (x :: l)). fold items in H. lia.
      * intros kv Hkv. split; [exact (Hx kv Hkv)|]. intros T'. apply IH; [exact (Hx kv Hkv)|].
        pose proof (dump_items_length_in f lvl (x :: l) kv Hkv). fold items in H.
        unfold f in H. rewrite !length_append_s in H. cbn [String.length] in H.
        rewrite !length_append_s in Hlen. cbn [String.length] in Hlen. lia.
    + unfold items, f. cbn [dump_items]. rewrite !append_assoc_s, skip_ws_nl_indent, dump_str_app.
      intros E. cbn in E. discriminate E.
Qed.

(** C5: saving a cache and loading the file back gives the same mapping,
    keys, values and order, for every cache whose records hold dicts, lists,
    strings, booleans and [None] (as tracking records do), with distinct
    keys at every level. *)
Theorem cache_roundtrip c :
  plain_json (JObj c) = true -> load_cache (save_cache_file c) = JObj c.
Proof.
  intros Hp. unfold load_cache, save_cache_file, json_loads.
  pose proof (parse_value_dump (String.length (dump 0 (JObj c))) (JObj c) 0 EmptyString Hp (le_n _))
    as E.
  pose proof (skip_ws_dump 0 (JObj c) EmptyString Hp) as W.
  rewrite append_nil_r in E, W. rewrite W, E. reflexivity.
Qed.

Lemma cache_roundtrip_witness : load_cache (save_cache_file demo_cache) = JObj demo_cache.
Proof. apply cache_roundtrip. reflexivity. Defined.

(* ================================================================== *)
(** * Further properties of the program *)

(** ** The extracted credential *)

Lemma run_len_prefix p s : forall hi m,
  m <= run_len p hi s ->
  str_all p (substring 0 m s) = true /\ (forall h, hi = Some h -> m <= h).
Proof.
  induction s as [|a s IH]; intros hi m H.
  - assert (m = 0) by (destruct hi as [[|]|]; simpl in H; lia). subst.
    split; [reflexivity | intros; lia].
  - destruct m as [|m]; [split; [reflexivity | intros; lia]|].
    destruct hi as [[|h]|]; simpl in H.
    + lia.
    + destruct (p a) eqn:Ep; [|lia].
      destruct (IH (Some h) m ltac:(lia)) as [H1 H2].
      simpl. rewrite Ep, H1. split; [reflexivity|].
      intros h' E. injection E as <-. specialize (H2 h eq_refl). lia.
    + destruct (p a) eqn:Ep; [|lia].
      destruct (IH None m ltac:(lia)) as [H1 _].
      simpl. rewrite Ep, H1. split; [reflexivity | discriminate].
Qed.

Lemma mt_rep_inv_run p lo hi s g k x :
  mt (RRep p lo hi) s g k = Some x ->
  exists m, lo <= m /\ m <= run_len p hi s
            /\ k (substring m (String.length s - m) s) g = Some x.
Proof.
  simpl. remember (run_len p hi s) as N eqn:HN. clear HN.
  induction N as [|n IH]; intros H.
  - destruct (Nat.ltb 0 lo) eqn:E; [discriminate|].
    apply Nat.ltb_ge in E.
    destruct (k _ g) eqn:Ek; [|discriminate].
    exists 0; repeat split; try lia. congruence.
  - destruct (Nat.ltb (S n) lo) eqn:E; [discriminate|].
    apply Nat.ltb_ge in E.
    destruct (k _ g) eqn:Ek.
    + exists (S n); repeat split; try lia. congruence.
    + destruct (IH H) as (m & H1 & H2 & H3). exists m; repeat split; auto; lia.
Qed.

Lemma mt_tail_group_shape r p lo hi :
  tail_group r = Some (p, lo, hi) ->
  forall s g x, mt r s g cont_done = Some x ->
  exists t, x = Some t /\ lo <= String.length t
            /\ (forall h, hi = Some h -> String.length t <= h) /\ str_all p t = true.
Proof.
  induction r; simpl; intros Hl s g x H; try discriminate.
  - destruct (group_free r1) eqn:Hg; [|discriminate].
    destruct (mt_group_free r1 Hg _ _ _ _ H) as [s' Hs'].
    eapply IHr2; eauto.
  - destruct r as [| | |p' lo' hi'|]; try discriminate.
    injection Hl as Ep Elo Ehi. subst p lo hi.
    destruct (mt_rep_inv_run p' lo' hi' s g _ x H) as (m & H1 & H2 & H3).
    pose proof (run_len_le p' hi' s) as Hle.
    unfold cont_done in H3. injection H3 as <-.
    rewrite length_substring_tail by lia.
    replace (String.length s - (String.length s - m)) with m by lia.
    destruct (run_len_prefix p' s hi' m H2) as [Ha Hb].
    exists (substring 0 m s). rewrite length_substring_head by lia.
    repeat split; auto.
Qed.

Lemma re_search_tail_shape r p lo hi s x :
  tail_group r = Some (p, lo, hi) -> re_search r s = Some x ->
  exists t, x = Some t /\ lo <= String.length t
            /\ (forall h, hi = Some h -> String.length t <= h) /\ str_all p t = true.
Proof.
  intros Hl. induction s; simpl; intros H;
    destruct (mt r _ None cont_done) eqn:E;
    try (injection H as <-; eapply mt_tail_group_shape; eauto; fail);
    try discriminate; auto.
Qed.

Lemma all_tok_str_all s : all_tok s = str_all is_tok_char s.
Proof. induction s; simpl; congruence. Qed.

Lemma extract_token_bounds text t :
  extract_token_from_text text = Some t ->
  4 <= String.length t <= 80 /\ all_tok t = true /\
  (re_search URL_TOKEN_RE text = None -> String.length t <= 40).
Proof.
  unfold extract_token_from_text.
  destruct (String.eqb text EmptyString); [discriminate|].
  rewrite all_tok_str_all.
  destruct (re_search URL_TOKEN_RE text) as [x|] eqn:E1.
  - intros ->.
    destruct (re_search_tail_shape URL_TOKEN_RE _ 4 (Some 80) _ _ eq_refl E1)
      as (t' & Ht & H1 & H2 & H3).
    injection Ht as <-. specialize (H2 80 eq_refl).
    repeat split; auto; try lia; intros; discriminate.
  - destruct (re_search TOKEN_RE text) as [x|] eqn:E2; [|discriminate].
    intros ->.
    destruct (re_search_tail_shape TOKEN_RE _ 4 (Some 40) _ _ eq_refl E2)
      as (t' & Ht & H1 & H2 & H3).
    injection Ht as <-. specialize (H2 40 eq_refl).
    repeat split; auto; lia.
Qed.

(** X1: a credential extracted from a text is 4 to 80 characters of
    [[A-Za-z0-9_-]]; when the text has no URL-parameter credential it is
    the value of [TOKEN_RE] and has at most 40 characters. *)
Theorem extract_token_shape text t :
  extract_token_from_text text = Some t ->
  4 <= String.length t <= 80 /\ all_tok t = true /\
  (re_search URL_TOKEN_RE text = None -> String.length t <= 40).
Proof. exact (extract_token_bounds text t). Qed.

Lemma extract_token_shape_witness :
  4 <= String.length "TOK-42" <= 80 /\ all_tok "TOK-42" = true /\
  (re_search URL_TOKEN_RE "access key = TOK-42" = None -> String.length "TOK-42" <= 40).
Proof. apply (extract_token_shape "access key = TOK-42" "TOK-42"). vm_compute. reflexivity. Defined.

(** ** The classifier on other values of [hasCode] *)

(** X3: the classifier never reports a token for an ineligible detail; a
    reported token comes with eligibility, only for a detail whose
    [hasCode] is [true], the integer 1 or a float equal to 1, and is 4 to
    80 characters of [[A-Za-z0-9_-]]. *)
Theorem classify_token_shape (d : dict) b o :
  is_free_or_has_token d = (b, o) ->
  (b = false -> o = None) /\
  (forall t, o = Some t ->
     b = true /\
     (dict_get d "hasCode" = Some (JBool true) \/ dict_get d "hasCode" = Some (JInt 1) \/
      exists c u, dict_get d "hasCode" = Some (JNum c u) /\
                  float_eq_int (float_of_lexeme (String c u)) 1 = true) /\
     4 <= String.length t <= 80 /\ all_tok t = true).
Proof.
  unfold is_free_or_has_token.
  destruct (in_none_or_zero (dict_get d "hasCode")).
  { intros E. injection E as <- <-. split; [discriminate | intros t E; discriminate]. }
  destruct (dict_get d "hasCode") as [x|] eqn:Hx.
  2:{ intros E. injection E as <- <-. split; [reflexivity | intros t E; discriminate]. }
  destruct (py_eq_int x 1) eqn:H1.
  2:{ intros E. injection E as <- <-. split; [reflexivity | intros t E; discriminate]. }
  destruct (extract_token_from_text _) as [t|] eqn:Et.
  2:{ intros E. injection E as <- <-. split; [reflexivity | intros t' E; discriminate]. }
  destruct (String.eqb t EmptyString).
  { intros E. injection E as <- <-. split; [reflexivity | intros t' E; discriminate]. }
  intros E. injection E as <- <-. split; [discriminate|].
  intros t' E. injection E as <-.
  destruct (extract_token_bounds _ _ Et) as (Hl & Ha & _).
  split; [reflexivity|]. split; [|split; [exact Hl | exact Ha]].
  destruct x as [|[]|z|c u| | |]; simpl in H1; try discriminate.
  - left; reflexivity.
  - apply Z.eqb_eq in H1. subst. right; left; reflexivity.
  - right; right. exists c, u. split; [reflexivity | exact H1].
Qed.

Lemma classify_token_shape_witness :
  (true = false -> Some "HTB-2024" = None) /\
  (forall t, Some "HTB-2024" = Some t ->
     true = true /\
     (dict_get [("hasCode", JNum "1" ".0"); ("instructions", JStr "invite code: HTB-2024")]
        "hasCode" = Some (JBool true) \/
      dict_get [("hasCode", JNum "1" ".0"); ("instructions", JStr "invite code: HTB-2024")]
        "hasCode" = Some (JInt 1) \/
      exists c u,
        dict_get [("hasCode", JNum "1" ".0"); ("instructions", JStr "invite code: HTB-2024")]
          "hasCode" = Some (JNum c u) /\
        float_eq_int (float_of_lexeme (String c u)) 1 = true) /\
     4 <= String.length t <= 80 /\ all_tok t = true).
Proof.
  apply (classify_token_shape
           [("hasCode", JNum "1" ".0"); ("instructions", JStr "invite code: HTB-2024")]).
  vm_compute. reflexivity.
Defined.

(** ** The banner image *)

Lemma prefix_cons c p v : String.prefix (String c p) v = true -> exists v', v = String c v'.
Proof.
  destruct v as [|c' v']; simpl; [discriminate|].
  destruct (ascii_dec c c') as [<-|]; [eauto | discriminate].
Qed.

Lemma py_strip_cons c v : is_space c = false -> py_strip (String c v) <> EmptyString.
Proof.
  intros Hc. unfold py_strip. simpl. rewrite Hc. simpl.
  rewrite Hc, Bool.andb_false_r. discriminate.
Qed.

(** A value starting with ["h"] or ["/"] has a non-blank [strip()]. *)
Lemma py_strip_prefix c p v :
  is_space c = false -> String.prefix (String c p) v = true -> py_strip v <> EmptyString.
Proof.
  intros Hc Hp. destruct (prefix_cons _ _ _ Hp) as [v' ->]. apply py_strip_cons; exact Hc.
Qed.

Lemma prefix_slash2 v : String.prefix "//" v = true -> String.prefix "/" v = true.
Proof.
  destruct v as [|c v]; [discriminate|].
  cbn [String.prefix]. destruct (ascii_dec "/" c); [destruct v; reflexivity | discriminate].
Qed.

Lemma choose_avatar_from_result d s keys r :
  choose_avatar_from d s keys = Some r ->
  exists k v, In k keys /\ py_or (dict_get d k) (dict_get s k) = Some (JStr v) /\
    ((String.prefix "http" v = true /\ r = v) \/
     (String.prefix "http" v = false /\ String.prefix "//" v = true /\ r = "https:" ++ v) \/
     (String.prefix "http" v = false /\ String.prefix "//" v = false /\
      String.prefix "/" v = true /\ r = "https://ctf.hackthebox.com" ++ v)).
Proof.
  induction keys as [|key keys IH]; simpl; [discriminate|].
  destruct (py_or (dict_get d key) (dict_get s key)) as [[| | | |v| |]|] eqn:Hv;
    try (intros H; destruct (IH H) as (k & v' & Hk & Hkv & Hr); exists k, v'; auto; fail).
  destruct (negb _);
    [|intros H; destruct (IH H) as (k & v' & Hk & Hkv & Hr); exists k, v'; auto; fail].
  destruct (String.prefix "http" v) eqn:H1.
  { intros E. injection E as <-. exists key, v.
    split; [left; reflexivity|]. split; [exact Hv|]. left; auto. }
  destruct (String.prefix "//" v) eqn:H2.
  { intros E. injection E as <-. exists key, v.
    split; [left; reflexivity|]. split; [exact Hv|]. right; left; auto. }
  destruct (String.prefix "/" v) eqn:H3.
  { intros E. injection E as <-. exists key, v.
    split; [left; reflexivity|]. split; [exact Hv|]. right; right; auto. }
  intros H; destruct (IH H) as (k & v' & Hk & Hkv & Hr); exists k, v'; auto.
Qed.

(** X4: a chosen banner URL starts with ["http"]; it is the string value of
    one of the keys [banner], [logo], [avatar], [image], [banner_image]
    (the detail's value when truthy, the summary's otherwise), returned as
    is when it starts with ["http"], with ["https:"] prepended when it
    starts with ["//"], and with the site origin prepended when it starts
    with a single ["/"]. *)
Theorem choose_avatar_result (detail ctf_summary : dict) r :
  choose_avatar detail ctf_summary = Some r ->
  String.prefix "http" r = true /\
  exists k v, In k avatar_keys /\
    py_or (dict_get detail k) (dict_get ctf_summary k) = Some (JStr v) /\
    ((String.prefix "http" v = true /\ r = v) \/
     (String.prefix "http" v = false /\ String.prefix "//" v = true /\ r = "https:" ++ v) \/
     (String.prefix "http" v = false /\ String.prefix "//" v = false /\
      String.prefix "/" v = true /\ r = "https://ctf.hackthebox.com" ++ v)).
Proof.
  intros H. pose proof (choose_avatar_from_result _ _ _ _ H) as Hr.
  split; [|exact Hr].
  destruct Hr as (k & v & _ & _ & [[H1 ->] | [[_ [_ ->]] | (_ & _ & _ & ->)]]);
    [exact H1 | reflexivity | reflexivity].
Qed.

Lemma choose_avatar_result_witness :
  String.prefix "http" "https://ctf.hackthebox.com/storage/b.png" = true /\
  exists k v, In k avatar_keys /\
    py_or (dict_get [("banner", JStr "banner.png")] k)
          (dict_get [("logo", JStr "/storage/b.png")] k) = Some (JStr v) /\
    ((String.prefix "http" v = true /\ "https://ctf.hackthebox.com/storage/b.png" = v) \/
     (String.prefix "http" v = false /\ String.prefix "//" v = true /\
      "https://ctf.hackthebox.com/storage/b.png" = "https:" ++ v) \/
     (String.prefix "http" v = false /\ String.prefix "//" v = false /\
      String.prefix "/" v = true /\
      "https://ctf.hackthebox.com/storage/b.png" = "https://ctf.hackthebox.com" ++ v)).
Proof.
  apply (choose_avatar_result [("banner", JStr "banner.png")] [("logo", JStr "/storage/b.png")]).
  reflexivity.
Defined.

Lemma choose_avatar_from_none d s keys :
  choose_avatar_from d s keys = None <->
  forall k v, In k keys -> py_or (dict_get d k) (dict_get s k) = Some (JStr v) ->
    String.prefix "http" v = false /\ String.prefix "/" v = false.
Proof.
  induction keys as [|key keys IH]; simpl.
  { split; [intros _ k v []| reflexivity]. }
  split.
  - destruct (py_or (dict_get d key) (dict_get s key)) as [[| | | |v| |]|] eqn:Hv;
      try (intros H k v' [<-|Hk] Hkv; [rewrite Hv in Hkv; discriminate | exact (proj1 IH H k v' Hk Hkv)]).
    destruct (negb (String.eqb (py_strip v) EmptyString)) eqn:Hs.
    + destruct (String.prefix "http" v) eqn:H1; [discriminate|].
      destruct (String.prefix "//" v) eqn:H2; [discriminate|].
      destruct (String.prefix "/" v) eqn:H3; [discriminate|].
      intros H k v' [<-|Hk] Hkv; [|exact (proj1 IH H k v' Hk Hkv)].
      rewrite Hv in Hkv. injection Hkv as <-. auto.
    + intros H k v' [<-|Hk] Hkv; [|exact (proj1 IH H k v' Hk Hkv)].
      rewrite Hv in Hkv. injection Hkv as <-.
      apply Bool.negb_false_iff, String.eqb_eq in Hs.
      split.
      * destruct (String.prefix "http" v) eqn:H1; [|reflexivity].
        exfalso. exact (py_strip_prefix "h" "ttp" v eq_refl H1 Hs).
      * destruct (String.prefix "/" v) eqn:H1; [|reflexivity].
        exfalso. exact (py_strip_prefix "/" "" v eq_refl H1 Hs).
  - intros H.
    assert (Hrest : choose_avatar_from d s keys = None).
    { apply IH. intros k v Hk Hkv. exact (H k v (or_intror Hk) Hkv). }
    destruct (py_or (dict_get d key) (dict_get s key)) as [[| | | |v| |]|] eqn:Hv; auto.
    destruct (H key v (or_introl eq_refl) Hv) as [H1 H3].
    rewrite H1. destruct (String.prefix "//" v) eqn:H2.
    + rewrite (prefix_slash2 v H2) in H3. discriminate.
    + rewrite H3. destruct (negb _); exact Hrest.
Qed.

(** X5: [choose_avatar] finds no banner exactly when, for each of the keys
    in turn, the value it considers (the detail's when truthy, the
    summary's otherwise) is not a string or is a string starting neither
    with ["http"] nor with ["/"]; leading blanks are not stripped first, so
    [" https://x"] is passed over. *)
Theorem choose_avatar_none (detail ctf_summary : dict) :
  choose_avatar detail ctf_summary = None <->
  forall k v, In k avatar_keys ->
    py_or (dict_get detail k) (dict_get ctf_summary k) = Some (JStr v) ->
    String.prefix "http" v = false /\ String.prefix "/" v = false.
Proof. apply choose_avatar_from_none. Qed.

Lemma choose_avatar_none_witness :
  choose_avatar [("banner", JStr " https://x/b.png"); ("logo", JStr "ftp://y/l.png")]
                [("banner", JStr "https://z/b.png")] = None.
Proof.
  apply (proj2 (choose_avatar_none
                  [("banner", JStr " https://x/b.png"); ("logo", JStr "ftp://y/l.png")]
                  [("banner", JStr "https://z/b.png")])).
  intros k v Hk. simpl in Hk.
  destruct Hk as [<-|[<-|[<-|[<-|[<-|[]]]]]]; simpl; intros E; try discriminate;
    injection E as <-; split; reflexivity.
Defined.

(** ** The reminder pass *)

Lemma dict_get_set d k v k' :
  dict_get (dict_set d k v) k' = if String.eqb k' k then Some v else dict_get d k'.
Proof.
  induction d as [|[k0 v0] d IH]; simpl; [reflexivity|].
  destruct (String.eqb k k0) eqn:E.
  - apply String.eqb_eq in E. subst k0. simpl.
    destruct (String.eqb k' k); reflexivity.
  - simpl. rewrite IH.
    destruct (String.eqb k' k0) eqn:E1; [|reflexivity].
    apply String.eqb_eq in E1. subst k0.
    destruct (String.eqb k' k) eqn:E2; [|reflexivity].
    apply String.eqb_eq in E2. subst k. rewrite String.eqb_refl in E. discriminate.
Qed.

Lemma dict_set_set_same d k v w : dict_set (dict_set d k v) k w = dict_set d k w.
Proof.
  induction d as [|[k0 v0] d IH]; simpl.
  - rewrite String.eqb_refl. reflexivity.
  - destruct (String.eqb k k0) eqn:E; simpl; rewrite E; [reflexivity|].
    rewrite IH. reflexivity.
Qed.

Lemma reminder_update_trans u v w :
  reminder_update u v -> reminder_update v w -> reminder_update u w.
Proof.
  intros [->|(e & -> & ->)] H2; [exact H2|].
  destruct H2 as [->|(e' & E & ->)]; [right; eauto|].
  injection E as <-. right. exists e. split; [reflexivity|].
  rewrite dict_set_set_same. reflexivity.
Qed.

Lemma reminder_body_cache env cid info c evs :
  st_cache (snd (reminder_body env cid info (mkSt c evs))) = c \/
  exists e, dict_get c cid = Some (JObj e) /\
    st_cache (snd (reminder_body env cid info (mkSt c evs)))
    = dict_set c cid (JObj (dict_set e "reminder_sent" (JBool true))).
Proof.
  destruct info as [| | | | | |infod]; try (left; reflexivity).
  cbv [reminder_body bind ret raise lift_opt as_dict]. cbv beta iota zeta.
  destruct (dict_get infod "starts_at") as [[| | | |s| |]|]; try (left; reflexivity).
  destruct (env_date_parse _ s) as [dt|]; try (left; reflexivity).
  destruct (utc_micros dt) as [start|]; try (left; reflexivity).
  destruct (_ && _ && _); try (left; reflexivity).
  destruct (dict_get infod "slug") as [slug|]; try (left; reflexivity).
  unfold get_ctf_details. destruct (env_details env (py_str slug)) as [|[dv|]]; try (left; reflexivity).
  cbv [ret]. cbv beta iota zeta.
  destruct (truthy dv); try (left; reflexivity).
  destruct dv as [| | | | | |d]; try (left; reflexivity).
  cbv [send_email emit get_cache ret bind st_cache st_events]. cbv beta iota zeta.
  destruct (dict_get c cid) as [entry|] eqn:Hc; try (left; reflexivity).
  destruct entry as [| | | | | |e]; try (left; reflexivity).
  cbv [put_cache save_cache get_cache emit bind st_cache st_events]. cbv beta iota zeta.
  right. exists e. split; [first [exact Hc | reflexivity] | reflexivity].
Qed.

Lemma reminder_loop_effect env items : forall c evs,
  fst (reminder_loop env items (mkSt c evs)) = Some tt /\
  forall k v', dict_get (st_cache (snd (reminder_loop env items (mkSt c evs)))) k = Some v' ->
    exists v, dict_get c k = Some v /\ reminder_update v v'.
Proof.
  induction items as [|[cid info] items IH]; intros c evs.
  { split; [reflexivity|]. intros k v' H. exists v'. split; [exact H | left; reflexivity]. }
  simpl. unfold bind, try_pass.
  pose proof (reminder_body_cache env cid info c evs) as Hc.
  destruct (reminder_body env cid info (mkSt c evs)) as [r [c1 evs1]]. simpl in Hc.
  assert (Hstep : forall k v1, dict_get c1 k = Some v1 ->
                    exists v, dict_get c k = Some v /\ reminder_update v v1).
  { intros k v1 H1. destruct Hc as [->|(e & He & ->)].
    - exists v1. split; [exact H1 | left; reflexivity].
    - rewrite dict_get_set in H1. destruct (String.eqb k cid) eqn:E.
      + apply String.eqb_eq in E. subst k. injection H1 as <-.
        exists (JObj e). split; [exact He | right; eauto].
      + exists v1. split; [exact H1 | left; reflexivity]. }
  assert (Hrest : fst (reminder_loop env items (mkSt c1 evs1)) = Some tt /\
                  forall k v', dict_get (st_cache (snd (reminder_loop env items (mkSt c1 evs1)))) k
                               = Some v' ->
                    exists v, dict_get c k = Some v /\ reminder_update v v').
  { destruct (IH c1 evs1) as [H1 H2]. split; [exact H1|].
    intros k v' H. destruct (H2 k v' H) as (v1 & Hv1 & U1).
    destruct (Hstep k v1 Hv1) as (v & Hv & U).
    exists v. split; [exact Hv | exact (reminder_update_trans _ _ _ U U1)]. }
  destruct r as [[]|]; exact Hrest.
Qed.

(** X6: the reminder pass never raises; it keeps exactly the tracked keys,
    and the only change it makes to a stored value is to set the record's
    [reminder_sent] to [True]. *)
Theorem reminder_pass_effect env c evs :
  exists st', reminder_pass env (mkSt c evs) = (Some tt, st') /\
    (forall k, dict_mem k (st_cache st') = dict_mem k c) /\
    (forall k v', dict_get (st_cache st') k = Some v' ->
       exists v, dict_get c k = Some v /\ reminder_update v v').
Proof.
  unfold reminder_pass, bind, get_cache. cbv beta iota. simpl st_cache.
  destruct (reminder_loop_effect env c c evs) as [H1 H2].
  pose proof (fun k => reminder_loop_keys env c c evs k) as Hk.
  destruct (reminder_loop env c (mkSt c evs)) as [r st'].
  simpl in H1, H2, Hk. subst r.
  exists st'. split; [reflexivity | split; assumption].
Qed.

(** One iteration against a cache that holds the snapshot's value. *)
Lemma reminder_body_outcome env cid info c evs :
  dict_get c cid = Some info ->
  try_pass (reminder_body env cid info) (mkSt c evs) =
  match reminder_due_msg env info with
  | None => (Some tt, mkSt c evs)
  | Some (m, infod) =>
      (Some tt, mkSt (dict_set c cid (JObj (dict_set infod "reminder_sent" (JBool true))))
                     ((evs ++ [ESend m (env_smtp env m)])
                      ++ [ESave (dict_set c cid (JObj (dict_set infod "reminder_sent" (JBool true))))]))
  end.
Proof.
  intros Hc.
  destruct info as [| | | | | |infod]; try reflexivity.
  unfold try_pass, reminder_due_msg, due_reminder.
  cbv [reminder_body bind ret raise lift_opt as_dict]. cbv beta iota zeta.
  destruct (dict_get infod "starts_at") as [[| | | |s| |]|]; try reflexivity.
  destruct (env_date_parse _ s) as [dt|]; try reflexivity.
  destruct (utc_micros dt) as [start|]; try reflexivity.
  destruct (_ && _ && _); try reflexivity.
  destruct (dict_get infod "slug") as [slug|]; try reflexivity.
  unfold get_ctf_details. destruct (env_details env (py_str slug)) as [|[dv|]]; try reflexivity.
  cbv [ret]. cbv beta iota zeta.
  destruct (truthy dv); try reflexivity.
  destruct dv as [| | | | | |d]; try reflexivity.
  cbv [send_email emit get_cache ret bind st_cache st_events]. cbv beta iota zeta.
  rewrite Hc.
  cbv [put_cache save_cache get_cache emit bind st_cache st_events]. cbv beta iota zeta.
  reflexivity.
Qed.

Lemma distinct_keys_notin l1 k l2 :
  distinct_keys (l1 ++ k :: l2) = true -> existsb (String.eqb k) l1 = false.
Proof.
  induction l1 as [|x l1 IH]; simpl; [reflexivity|].
  intros H. apply andb_prop in H as [H1 H2].
  rewrite (IH H2), Bool.orb_false_r.
  destruct (String.eqb k x) eqn:E; [|reflexivity].
  apply String.eqb_eq in E. subst x.
  rewrite existsb_app in H1. simpl in H1. rewrite String.eqb_refl, Bool.orb_true_r in H1.
  discriminate.
Qed.

Lemma dict_get_app_notin pre k v t :
  existsb (String.eqb k) (map fst pre) = false -> dict_get (pre ++ (k, v) :: t)%list k = Some v.
Proof.
  induction pre as [|[k0 v0] pre IH]; simpl; intros H.
  - rewrite String.eqb_refl. reflexivity.
  - apply Bool.orb_false_iff in H as [H1 H2]. rewrite H1. exact (IH H2).
Qed.

Lemma dict_set_app_notin pre k v w t :
  existsb (String.eqb k) (map fst pre) = false ->
  dict_set (pre ++ (k, v) :: t)%list k w = (pre ++ (k, w) :: t)%list.
Proof.
  induction pre as [|[k0 v0] pre IH]; simpl; intros H.
  - rewrite String.eqb_refl. reflexivity.
  - apply Bool.orb_false_iff in H as [H1 H2]. rewrite H1, (IH H2). reflexivity.
Qed.

(** A record whose reminder was sent gets no further reminder. *)
Lemma reminder_due_msg_sent env infod :
  truthy_opt (dict_get infod "reminder_sent") = true -> reminder_due_msg env (JObj infod) = None.
Proof.
  intros H. unfold reminder_due_msg, due_reminder. rewrite H. simpl.
  destruct (dict_get infod "starts_at") as [[| | | |s| |]|]; try reflexivity.
  destruct (env_date_parse _ s) as [dt|]; try reflexivity.
  destruct (utc_micros dt); reflexivity.
Qed.

Lemma mark_reminded_cons env k v t :
  mark_reminded env ((k, v) :: t) = (k, mark_value env v) :: mark_reminded env t.
Proof. reflexivity. Qed.

Lemma reminder_due_msg_mark env v : reminder_due_msg env (mark_value env v) = None.
Proof.
  unfold mark_value. destruct (reminder_due_msg env v) as [[m infod]|] eqn:E; [|exact E].
  apply reminder_due_msg_sent. rewrite dict_get_set_same. reflexivity.
Qed.

Lemma map_fst_mark_reminded env c : map fst (mark_reminded env c) = map fst c.
Proof. induction c as [|[k v] c IH]; simpl; [reflexivity|]. rewrite IH. reflexivity. Qed.

Lemma mark_reminded_twice env c : mark_reminded env (mark_reminded env c) = mark_reminded env c.
Proof.
  induction c as [|[k v] c IH]; [reflexivity|].
  rewrite !mark_reminded_cons, IH. f_equal. f_equal.
  unfold mark_value at 1. rewrite reminder_due_msg_mark. reflexivity.
Qed.

Lemma mark_reminded_quiet env c kv :
  In kv (mark_reminded env c) -> reminder_due_msg env (snd kv) = None.
Proof.
  induction c as [|[k v] c IH]; simpl; [intros []|].
  intros [<-|H]; [apply reminder_due_msg_mark | exact (IH H)].
Qed.

Lemma reminder_loop_marks env l : forall pre evs,
  distinct_keys (map fst (pre ++ l)%list) = true ->
  exists evs', reminder_loop env l (mkSt (pre ++ l)%list evs)
               = (Some tt, mkSt (pre ++ mark_reminded env l)%list evs') /\
    ((forall kv, In kv l -> reminder_due_msg env (snd kv) = None) -> evs' = evs).
Proof.
  induction l as [|[k v] t IH]; intros pre evs Hd.
  { exists evs. split; [reflexivity | intros _; reflexivity]. }
  assert (Hn : existsb (String.eqb k) (map fst pre) = false).
  { apply (distinct_keys_notin _ k (map fst t)). rewrite map_app in Hd. exact Hd. }
  assert (Hd' : forall w, distinct_keys (map fst ((pre ++ [(k, w)]) ++ t)%list) = true).
  { intros w. rewrite <- app_assoc. rewrite map_app in Hd |- *. exact Hd. }
  cbn [reminder_loop]. unfold bind.
  rewrite (reminder_body_outcome env k v _ evs (dict_get_app_notin pre k v t Hn)).
  rewrite mark_reminded_cons. unfold mark_value.
  destruct (reminder_due_msg env v) as [[m infod]|] eqn:Hm.
  - rewrite (dict_set_app_notin pre k v _ t Hn).
    set (w := JObj (dict_set infod "reminder_sent" (JBool true))).
    replace (pre ++ (k, w) :: t)%list with ((pre ++ [(k, w)]) ++ t)%list by (rewrite <- app_assoc; reflexivity).
    destruct (IH (pre ++ [(k, w)])%list ((evs ++ [ESend m (env_smtp env m)]) ++ [ESave ((pre ++ [(k, w)]) ++ t)%list])%list (Hd' w)) as (evs' & E & _).
    exists evs'. rewrite E, <- app_assoc. split; [reflexivity|].
    intros Hq. specialize (Hq (k, v) (or_introl eq_refl)). simpl in Hq. congruence.
  - replace (pre ++ (k, v) :: t)%list with ((pre ++ [(k, v)]) ++ t)%list by (rewrite <- app_assoc; reflexivity).
    destruct (IH (pre ++ [(k, v)])%list evs (Hd' v)) as (evs' & E & Hq).
    exists evs'. rewrite E, <- app_assoc. split; [reflexivity|].
    intros Hall. apply Hq. intros kv Hkv. apply Hall. right. exact Hkv.
Qed.

(** X7: on a cache with distinct keys (as every loaded cache has), a second
    reminder pass in the same environment sends nothing, writes no file
    and leaves the cache as the first pass left it. *)
Theorem reminder_pass_idempotent env c evs r st1 evs' :
  distinct_keys (map fst c) = true ->
  reminder_pass env (mkSt c evs) = (r, st1) ->
  reminder_pass env (mkSt (st_cache st1) evs') = (Some tt, mkSt (st_cache st1) evs').
Proof.
  intros Hd H. unfold reminder_pass, bind, get_cache in H |- *. cbv beta iota in H |- *.
  simpl st_cache in H |- *.
  destruct (reminder_loop_marks env c [] evs Hd) as (e1 & E1 & _).
  simpl app in E1. rewrite E1 in H. injection H as _ <-. simpl st_cache.
  assert (Hd2 : distinct_keys (map fst ([] ++ mark_reminded env c)%list) = true)
    by (simpl; rewrite map_fst_mark_reminded; exact Hd).
  destruct (reminder_loop_marks env (mark_reminded env c) [] evs' Hd2) as (e2 & E2 & Hq).
  simpl app in E2. rewrite E2, mark_reminded_twice.
  rewrite (Hq (mark_reminded_quiet env c)). reflexivity.
Qed.

Lemma reminder_pass_idempotent_witness :
  reminder_pass reminder_demo_env
    (mkSt (st_cache (snd (reminder_pass reminder_demo_env (mkSt reminder_demo_cache [])))) [])
  = (Some tt,
     mkSt (st_cache (snd (reminder_pass reminder_demo_env (mkSt reminder_demo_cache [])))) []).
Proof.
  apply (reminder_pass_idempotent reminder_demo_env reminder_demo_cache []
           (fst (reminder_pass reminder_demo_env (mkSt reminder_demo_cache [])))
           (snd (reminder_pass reminder_demo_env (mkSt reminder_demo_cache [])))).
  - reflexivity.
  - apply surjective_pairing.
Defined.

Example reminder_demo_first_pass :
  sends (st_events (snd (reminder_pass reminder_demo_env (mkSt reminder_demo_cache []))))
  = [(MsgReminder "demo-ctf" (Some (JStr "Demo CTF")), true)].
Proof. vm_compute. reflexivity. Qed.

(** ** The discovery pass *)

Lemma body_outcome_msg env x c k m rcd :
  body_outcome env x c = OAdd k m rcd ->
  exists ctf d t, x = JObj ctf /\ m = MsgDiscovery ctf d t.
Proof.
  destruct x as [| | | | | |ctf]; simpl; try discriminate.
  destruct (String.eqb _ _ || dict_mem _ _); [discriminate|].
  destruct (env_details env _) as [|detail]; [discriminate|].
  destruct (negb (truthy_opt detail)); [discriminate|].
  destruct (json_of_opt detail) as [| | | | | |d]; try discriminate.
  destruct (is_free_or_has_token d) as [[] token]; [|discriminate].
  destruct (build_email_body_ok d); [|discriminate].
  intros E. injection E as _ <- _. eauto.
Qed.

Lemma dict_get_app_some d d' k v :
  dict_get d k = Some v -> dict_get (d ++ d')%list k = Some v.
Proof.
  induction d as [|[k0 v0] d IH]; simpl; [discriminate|].
  destruct (String.eqb k k0); [exact (fun H => H) | exact IH].
Qed.

Lemma discovery_loop_growth env l : forall c evs r st1,
  discovery_loop env l (mkSt c evs) = (r, st1) ->
  (forall k v, dict_get c k = Some v -> dict_get (st_cache st1) k = Some v) /\
  exists new, st_events st1 = (evs ++ new)%list /\
    length (st_cache st1) = length c + length (sends new) /\
    (forall m ok, In (m, ok) (sends new) ->
       exists ctf d t, In (JObj ctf) l /\ m = MsgDiscovery ctf d t).
Proof.
  induction l as [|x l IH]; intros c evs r st1 H; simpl in H.
  { unfold ret in H. injection H as _ <-. split; [auto|].
    exists []. simpl. rewrite app_nil_r. split; [reflexivity | split; [lia | intros m ok []]]. }
  unfold bind in H. rewrite discovery_body_outcome in H.
  destruct (body_outcome env x c) as [| |k m rcd] eqn:Ho; simpl in H.
  - injection H as _ <-. split; [auto|].
    exists []. simpl. rewrite app_nil_r. split; [reflexivity | split; [lia | intros m ok []]].
  - destruct (IH _ _ _ _ H) as [Hk (new & He & Hl & Hm)]. split; [exact Hk|].
    exists new. split; [exact He | split; [exact Hl|]].
    intros m ok Hin. destruct (Hm m ok Hin) as (ctf & d & t & Hi & E).
    exists ctf, d, t. split; [right; exact Hi | exact E].
  - destruct (body_outcome_add _ _ _ _ _ _ Ho) as (ctf & Hx & _ & _ & Hfresh & _).
    destruct (body_outcome_msg _ _ _ _ _ _ Ho) as (ctf' & d & t & Hx' & Hmsg).
    rewrite (dict_set_fresh c k rcd Hfresh) in H.
    destruct (IH _ _ _ _ H) as [Hk (new & He & Hl & Hm)]. split.
    + intros k' v Hv. apply Hk. apply dict_get_app_some. exact Hv.
    + exists ([ESend m (env_smtp env m); ESave (c ++ [(k, rcd)])%list] ++ new)%list.
      split; [rewrite He, <- app_assoc; reflexivity|].
      split.
      * rewrite Hl, length_app. simpl. lia.
      * intros m' ok Hin. simpl in Hin. destruct Hin as [E|Hin].
        -- injection E as <- _. exists ctf', d, t. split; [left; congruence | exact Hmsg].
        -- destruct (Hm m' ok Hin) as (ctf'' & d' & t' & Hi & E).
           exists ctf'', d', t'. split; [right; exact Hi | exact E].
Qed.

Lemma discovery_pass_effect env c evs r st1 :
  discovery_pass env (mkSt c evs) = (r, st1) ->
  (forall k v, dict_get c k = Some v -> dict_get (st_cache st1) k = Some v) /\
  exists new, st_events st1 = (evs ++ new)%list /\
    length (st_cache st1) = length c + length (sends new) /\
    (forall m ok, In (m, ok) (sends new) ->
       exists l ctf d t, env_list env = Some (JArr l) /\ In (JObj ctf) l /\
                         m = MsgDiscovery ctf d t).
Proof.
  unfold discovery_pass. destruct (env_list env) as [v|] eqn:Hl.
  2:{ unfold ret. intros E. injection E as _ <-. split; [auto|].
      exists []. simpl. rewrite app_nil_r. split; [reflexivity | split; [lia | intros m ok []]]. }
  unfold bind. rewrite iter_catalog_state.
  destruct (fst (iter_catalog v (mkSt [] []))) as [l|] eqn:Hi.
  2:{ intros E. injection E as _ <-. split; [auto|].
      exists []. simpl. rewrite app_nil_r. split; [reflexivity | split; [lia | intros m ok []]]. }
  intros H. destruct (discovery_loop_growth env l c evs r st1 H) as [Hk (new & He & Hn & Hm)].
  split; [exact Hk|]. exists new. split; [exact He | split; [exact Hn|]].
  intros m ok Hin. destruct (Hm m ok Hin) as (ctf & d & t & Hc & E).
  destruct (iter_catalog_list v l Hi) as [-> | ->]; [destruct Hc|].
  exists l, ctf, d, t. auto.
Qed.

(** X8: the discovery pass never changes or removes a stored record; the
    cache grows by exactly one record per notification it sends, and every
    notification it sends is a discovery e-mail about a catalog summary. *)
Theorem discovery_pass_growth env c evs r st1 :
  discovery_pass env (mkSt c evs) = (r, st1) ->
  (forall k v, dict_get c k = Some v -> dict_get (st_cache st1) k = Some v) /\
  exists new, st_events st1 = (evs ++ new)%list /\
    length (st_cache st1) = length c + length (sends new) /\
    (forall m ok, In (m, ok) (sends new) ->
       exists l ctf d t, env_list env = Some (JArr l) /\ In (JObj ctf) l /\
                         m = MsgDiscovery ctf d t).
Proof. exact (discovery_pass_effect env c evs r st1). Qed.

Lemma discovery_pass_growth_witness :
  exists r st1, discovery_pass mixed_env_demo (mkSt demo_cache []) = (r, st1) /\
  (forall k v, dict_get demo_cache k = Some v -> dict_get (st_cache st1) k = Some v) /\
  exists new, st_events st1 = ([] ++ new)%list /\
    length (st_cache st1) = length demo_cache + length (sends new) /\
    (forall m ok, In (m, ok) (sends new) ->
       exists l ctf d t, env_list mixed_env_demo = Some (JArr l) /\ In (JObj ctf) l /\
                         m = MsgDiscovery ctf d t).
Proof.
  do 2 eexists. split; [apply surjective_pairing|].
  apply (discovery_pass_growth mixed_env_demo demo_cache []
           (fst (discovery_pass mixed_env_demo (mkSt demo_cache [])))).
  apply surjective_pairing.
Defined.

(** ** Which e-mails a run sends *)

Lemma reminder_body_sends env cid info c evs :
  sends (st_events (snd (reminder_body env cid info (mkSt c evs)))) = sends evs \/
  exists infod slug d, info = JObj infod /\ dict_get infod "slug" = Some slug /\
    sends (st_events (snd (reminder_body env cid info (mkSt c evs))))
    = (sends evs ++ [(MsgReminder (py_str slug) (dict_get d "name"),
                      env_smtp env (MsgReminder (py_str slug) (dict_get d "name")))])%list.
Proof.
  destruct info as [| | | | | |infod]; try (left; reflexivity).
  cbv [reminder_body bind ret raise lift_opt as_dict]. cbv beta iota zeta.
  destruct (dict_get infod "starts_at") as [[| | | |s| |]|]; try (left; reflexivity).
  destruct (env_date_parse _ s) as [dt|]; try (left; reflexivity).
  destruct (utc_micros dt) as [start|]; try (left; reflexivity).
  destruct (_ && _ && _); try (left; reflexivity).
  destruct (dict_get infod "slug") as [slug|] eqn:Hslug; try (left; reflexivity).
  unfold get_ctf_details. destruct (env_details env (py_str slug)) as [|[dv|]]; try (left; reflexivity).
  cbv [ret]. cbv beta iota zeta.
  destruct (truthy dv); try (left; reflexivity).
  destruct dv as [| | | | | |d]; try (left; reflexivity).
  cbv [send_email emit get_cache ret bind st_cache st_events]. cbv beta iota zeta.
  right. exists infod, slug, d. split; [reflexivity | split; [exact Hslug|]].
  destruct (dict_get c cid) as [entry|]; [destruct entry as [| | | | | |e]|];
    cbv [put_cache save_cache get_cache emit bind st_cache st_events lift_opt as_dict raise ret];
    cbv beta iota zeta; simpl; rewrite ?sends_app; simpl; rewrite ?app_nil_r; reflexivity.
Qed.

Lemma reminder_loop_sends env items : forall c evs m ok,
  In (m, ok) (sends (st_events (snd (reminder_loop env items (mkSt c evs))))) ->
  In (m, ok) (sends evs) \/ reminder_source items m.
Proof.
  induction items as [|[cid info] items IH]; intros c evs m ok Hin; [left; exact Hin|].
  simpl in Hin. unfold bind, try_pass in Hin.
  pose proof (reminder_body_sends env cid info c evs) as Hs.
  destruct (reminder_body env cid info (mkSt c evs)) as [r [c1 evs1]]. simpl in Hs.
  assert (Hstep : In (m, ok) (sends evs1) -> In (m, ok) (sends evs) \/ reminder_source ((cid, info) :: items) m).
  { intros H1. destruct Hs as [Hs | (infod & slug & d & -> & Hslug & Hs)]; rewrite Hs in H1.
    - left; exact H1.
    - apply in_app_or in H1 as [H1|H1]; [left; exact H1|].
      right. destruct H1 as [E|[]]. injection E as <- _.
      exists cid, infod, slug, (dict_get d "name"). split; [left; reflexivity | auto]. }
  assert (Hrest : In (m, ok) (sends (st_events (snd (reminder_loop env items (mkSt c1 evs1))))) ->
                  In (m, ok) (sends evs) \/ reminder_source ((cid, info) :: items) m).
  { intros H2. destruct (IH c1 evs1 m ok H2) as [H3 | (cid' & infod & slug & n & Hi & Hs' & E)].
    - exact (Hstep H3).
    - right. exists cid', infod, slug, n. split; [right; exact Hi | auto]. }
  destruct r as [[]|]; exact (Hrest Hin).
Qed.

Lemma discovery_loop_sends env l : forall c evs r st1 m ok,
  discovery_loop env l (mkSt c evs) = (r, st1) ->
  In (m, ok) (sends (st_events st1)) ->
  In (m, ok) (sends evs) \/ exists ctf d t, In (JObj ctf) l /\ m = MsgDiscovery ctf d t.
Proof.
  intros c evs r st1 m ok H Hin.
  destruct (discovery_loop_growth env l c evs r st1 H) as [_ (new & He & _ & Hm)].
  rewrite He, sends_app in Hin. apply in_app_or in Hin as [Hin|Hin]; [left; exact Hin|].
  right. exact (Hm m ok Hin).
Qed.

(** X9: every e-mail a run sends is a reminder for a record of the cache
    as loaded at the start of the run, with the slug stored in that record,
    or a discovery e-mail about a summary of the fetched catalog; so a CTF
    first tracked in a run gets no reminder in that run. *)
Theorem main_mail_sources env loaded st r st' :
  main_with env (JObj loaded) st = (r, st') ->
  forall m ok, In (m, ok) (sends (st_events st')) ->
    In (m, ok) (sends (st_events st)) \/
    (exists cid infod slug n, In (cid, JObj infod) loaded /\ dict_get infod "slug" = Some slug /\
                              m = MsgReminder (py_str slug) n) \/
    (exists l ctf d t, env_list env = Some (JArr l) /\ In (JObj ctf) l /\
                       m = MsgDiscovery ctf d t).
Proof.
  intros H m ok Hin.
  cbv [main_with as_dict put_cache reminder_pass bind ret get_cache st_cache st_events] in H.
  cbv beta iota zeta in H.
  destruct st as [c0 evs0]. simpl in H |- *.
  destruct (reminder_loop_effect env loaded loaded evs0) as [Hsome _].
  pose proof (reminder_loop_sends env loaded loaded evs0) as Hrs.
  destruct (reminder_loop env loaded (mkSt loaded evs0)) as [r2 [c2 evs2]].
  simpl in Hsome, Hrs. subst r2.
  pose proof (discovery_pass_effect env c2 evs2 r st' H) as [_ (new & He & _ & Hm)].
  rewrite He, sends_app in Hin. apply in_app_or in Hin as [Hin|Hin].
  - destruct (Hrs m ok Hin) as [H1|H1]; [left; exact H1 | right; left; exact H1].
  - right; right. exact (Hm m ok Hin).
Qed.

Lemma main_mail_sources_witness :
  In (MsgReminder "demo-ctf" (Some (JStr "Demo CTF")), true) (sends []) \/
  (exists cid infod slug n, In (cid, JObj infod) reminder_demo_cache /\
                            dict_get infod "slug" = Some slug /\
                            MsgReminder "demo-ctf" (Some (JStr "Demo CTF")) = MsgReminder (py_str slug) n) \/
  (exists l ctf d t, env_list reminder_demo_env = Some (JArr l) /\ In (JObj ctf) l /\
                     MsgReminder "demo-ctf" (Some (JStr "Demo CTF")) = MsgDiscovery ctf d t).
Proof.
  apply (main_mail_sources reminder_demo_env reminder_demo_cache (mkSt [] [])
           (fst (main_with reminder_demo_env (JObj reminder_demo_cache) (mkSt [] [])))
           (snd (main_with reminder_demo_env (JObj reminder_demo_cache) (mkSt [] [])))).
  - apply surjective_pairing.
  - vm_compute. left. reflexivity.
Defined.

(** ** An exception in the discovery loop ends the run *)

Lemma discovery_loop_app env l1 l2 : forall st,
  discovery_loop env (l1 ++ l2)%list st = (discovery_loop env l1 ;;; discovery_loop env l2) st.
Proof.
  induction l1 as [|x l1 IH]; intros st; [reflexivity|].
  simpl. unfold bind at 1 2 3.
  destruct (discovery_body env x st) as [[u|] st']; [|reflexivity].
  rewrite IH. reflexivity.
Qed.

(** X10: when the detail request for an untracked summary with a non-empty
    key raises, the discovery pass raises there: summaries after it are not
    examined, and the records and e-mails of the summaries before it are
    kept. *)
Theorem discovery_stops_at_fetch_error env l1 ctf l2 c evs st_mid :
  env_list env = Some (JArr (l1 ++ JObj ctf :: l2)) ->
  discovery_loop env l1 (mkSt c evs) = (Some tt, st_mid) ->
  py_str_opt (dict_get ctf "id") <> EmptyString ->
  dict_mem (py_str_opt (dict_get ctf "id")) (st_cache st_mid) = false ->
  env_details env (py_str_opt (dict_get ctf "slug")) = FetchRaise ->
  discovery_pass env (mkSt c evs) = (None, st_mid).
Proof.
  intros Hl H1 Hk Hm Hf.
  unfold discovery_pass. rewrite Hl. cbv [iter_catalog bind ret]. cbv beta iota.
  rewrite discovery_loop_app. unfold bind at 1. rewrite H1.
  destruct st_mid as [cm em]. simpl in Hm. simpl. unfold bind.
  rewrite discovery_body_outcome. simpl.
  apply String.eqb_neq in Hk. rewrite Hk, Hm, Hf. reflexivity.
Qed.

Lemma discovery_stops_at_fetch_error_witness :
  discovery_pass flaky_env (mkSt [] [])
  = (None, snd (discovery_loop flaky_env [flaky_head] (mkSt [] []))).
Proof.
  apply (discovery_stops_at_fetch_error flaky_env [flaky_head] flaky_ctf [flaky_tail]).
  - reflexivity.
  - vm_compute. reflexivity.
  - discriminate.
  - vm_compute. reflexivity.
  - reflexivity.
Defined.

(** ** The cache file is ASCII text *)

Lemma str_all_app p a b : str_all p (a ++ b) = str_all p a && str_all p b.
Proof. induction a as [|c a IH]; simpl; [reflexivity|]. rewrite IH, andb_assoc. reflexivity. Qed.

Lemma escape_char_ok c : str_all dump_char_ok (escape_char c) = true.
Proof. destruct c as [[] [] [] [] [] [] [] []]; reflexivity. Qed.

Lemma dump_str_ok s : str_all dump_char_ok (dump_str s) = true.
Proof.
  unfold dump_str. cbn [str_all]. rewrite str_all_app.
  assert (H : str_all dump_char_ok (escape_body s) = true).
  { induction s as [|c s IH]; [reflexivity|]. cbn [escape_body].
    rewrite str_all_app, escape_char_ok, IH. reflexivity. }
  rewrite H. reflexivity.
Qed.

Lemma nl_indent_ok n : str_all dump_char_ok (nl_indent n) = true.
Proof. unfold nl_indent. induction n as [|n IH]; [reflexivity|]. exact IH. Qed.

Lemma Z_to_dec_ok z : str_all dump_char_ok (Z_to_dec z) = true.
Proof.
  unfold Z_to_dec. destruct (Z.to_int z) as [u|u]; simpl;
    induction u; simpl; auto.
Qed.

Lemma dump_items_ok {A} (f : A -> string) lvl l :
  (forall x, In x l -> str_all dump_char_ok (f x) = true) ->
  str_all dump_char_ok (dump_items f lvl l) = true.
Proof.
  induction l as [|x t IH]; intros H; [reflexivity|].
  cbn [dump_items]. rewrite !str_all_app, nl_indent_ok, (H x (or_introl eq_refl)).
  destruct t as [|y t]; [reflexivity|].
  cbn [String.append str_all]. apply IH. intros z Hz. apply H. right. exact Hz.
Qed.

Lemma dump_ok n : forall v lvl,
  lexemes_printable v = true -> String.length (dump lvl v) <= n ->
  str_all dump_char_ok (dump lvl v) = true.
Proof.
  induction n as [|n IH]; intros v lvl Hv Hlen.
  { exfalso. destruct v as [|[]|z|c t|s|[|x l]|[|x l]];
      cbn [dump dump_str String.append String.length] in Hlen; try lia.
    pose proof (Z_to_dec_nonempty z). destruct (Z_to_dec z); [contradiction | simpl in Hlen; lia]. }
  destruct v as [|[]|z|c t|s|[|x l]|[|x l]]; try reflexivity.
  - apply Z_to_dec_ok.
  - exact Hv.
  - apply dump_str_ok.
  - cbn [lexemes_printable] in Hv.
    assert (Hx : forall y, In y (x :: l) -> lexemes_printable y = true).
    { intros y Hy. exact (proj1 (forallb_forall _ _) Hv y Hy). }
    set (items := dump_items (dump (S lvl)) lvl (x :: l)).
    assert (Hd : dump lvl (JArr (x :: l)) = "[" ++ items ++ nl_indent lvl ++ "]") by reflexivity.
    rewrite Hd in Hlen |- *. rewrite !str_all_app, nl_indent_ok.
    unfold items. rewrite dump_items_ok; [reflexivity|].
    intros y Hy. apply IH; [exact (Hx y Hy)|].
    pose proof (dump_items_length_in (dump (S lvl)) lvl (x :: l) y Hy). fold items in H.
    rewrite !length_append_s in Hlen. cbn [String.length] in Hlen. lia.
  - cbn [lexemes_printable] in Hv.
    assert (Hx : forall kv, In kv (x :: l) -> lexemes_printable (snd kv) = true).
    { intros kv Hkv. exact (proj1 (forallb_forall _ _) Hv kv Hkv). }
    set (f := fun kv : string * json => dump_str (fst kv) ++ ": " ++ dump (S lvl) (snd kv)).
    set (items := dump_items f lvl (x :: l)).
    assert (Hd : dump lvl (JObj (x :: l)) = "{" ++ items ++ nl_indent lvl ++ "}") by reflexivity.
    rewrite Hd in Hlen |- *. rewrite !str_all_app, nl_indent_ok.
    unfold items. rewrite dump_items_ok; [reflexivity|].
    intros kv Hkv. unfold f. rewrite !str_all_app, dump_str_ok. cbn [str_all].
    apply IH; [exact (Hx kv Hkv)|].
    pose proof (dump_items_length_in f lvl (x :: l) kv Hkv). fold items in H.
    unfold f in H. rewrite !length_append_s in H. cbn [String.length] in H.
    rewrite !length_append_s in Hlen. cbn [String.length] in Hlen. lia.
Qed.

(** X11: the file [save_cache] writes is ASCII text: every character is a
    newline or a printable ASCII character, since strings are written with
    their quotes, backslashes, control and non-ASCII characters escaped;
    this holds whenever the numbers the cache stores have printable text. *)
Theorem save_cache_file_ascii c :
  lexemes_printable (JObj c) = true ->
  exists s, save_cache_file c = FileText s /\ str_all dump_char_ok s = true.
Proof.
  intros H. exists (dump 0 (JObj c)). split; [reflexivity|].
  exact (dump_ok _ (JObj c) 0 H (le_n _)).
Qed.

Lemma save_cache_file_ascii_witness :
  exists s, save_cache_file demo_cache = FileText s /\ str_all dump_char_ok s = true.
Proof. apply save_cache_file_ascii. reflexivity. Defined.

